(** * Block lifecycle of [ip_blocking.py]

    A shallow embedding of the block/unblock core of [ip_blocking.py]
    ([execute_firewall_command], [block_ip], [unblock_ip], [log_action],
    [load_blocklist], [save_blocklist] and [AutoUnblocker]) together with
    the properties of its persisted event log.

    The program is untyped Python over JSON data, so values are modelled by
    one universal type [pyval]; every function of the program is a
    computation in a state-and-exception monad over a [world] that holds
    the two files, the clock and the behaviour of the processes the
    program launches. *)

From Stdlib Require Import ZArith Lia Ascii String.
From stdpp Require Import base list strings pretty gmap.

Open Scope Z_scope.
Set Warnings "-register-all".

(** ** Python values *)

(** What [json.load] produces and [json.dump] accepts. A [dict] keeps its
    insertion order, so it is an association list. *)
Inductive pyval : Type :=
| PNone
| PBool (b : bool)
| PInt (n : Z)
| PFloat (repr : string)
| PStr (s : string)
| PList (items : list pyval)
| PDict (items : list (string * pyval)).

Definition py_type_name (v : pyval) : string :=
  match v with
  | PNone => "NoneType"
  | PBool _ => "bool"
  | PInt _ => "int"
  | PFloat _ => "float"
  | PStr _ => "str"
  | PList _ => "list"
  | PDict _ => "dict"
  end.

Definition dquote : ascii := "034"%char.
Definition squote : ascii := "'"%char.
Definition backslash : ascii := "\"%char.

Fixpoint string_mem (c : ascii) (s : string) : bool :=
  match s with
  | EmptyString => false
  | String c' s' => Ascii.eqb c c' || string_mem c s'
  end.

Definition hex_digit (n : nat) : ascii :=
  match String.get n "0123456789abcdef" with
  | Some c => c
  | None => "0"%char
  end.

(** One character of [repr] of a [str] delimited by [q]. Bytes from 128 on
    are the UTF-8 encoding of printable characters and are copied. *)
Definition py_repr_char (q c : ascii) : string :=
  let n := nat_of_ascii c in
  if Ascii.eqb c q || Ascii.eqb c backslash then String backslash (String c EmptyString)
  else if Nat.eqb n 9 then "\t"
  else if Nat.eqb n 10 then "\n"
  else if Nat.eqb n 13 then "\r"
  else if Nat.ltb n 32 || Nat.eqb n 127 then
    "\x" +:+ String (hex_digit (Nat.div n 16)) (String (hex_digit (Nat.modulo n 16)) EmptyString)
  else String c EmptyString.

Fixpoint py_repr_chars (q : ascii) (s : string) : string :=
  match s with
  | EmptyString => EmptyString
  | String c s' => py_repr_char q c +:+ py_repr_chars q s'
  end.

(** [repr(s)] for a [str]: single quotes, unless the text holds a single
    quote and no double quote. *)
Definition py_repr_str (s : string) : string :=
  let q := if string_mem squote s && negb (string_mem dquote s) then dquote else squote in
  String q (py_repr_chars q s +:+ String q EmptyString).

Fixpoint str_join (sep : string) (l : list string) : string :=
  match l with
  | [] => EmptyString
  | [s] => s
  | s :: l' => s +:+ sep +:+ str_join sep l'
  end.

(** [repr(v)]. *)
Fixpoint py_repr (v : pyval) : string :=
  match v with
  | PNone => "None"
  | PBool true => "True"
  | PBool false => "False"
  | PInt n => pretty n
  | PFloat r => r
  | PStr s => py_repr_str s
  | PList items => "[" +:+ str_join ", " (map py_repr items) +:+ "]"
  | PDict items =>
      "{" +:+ str_join ", "
                (map (fun kv => let '(k, x) := kv in py_repr_str k +:+ ": " +:+ py_repr x) items)
          +:+ "}"
  end.

(** [str(v)], as an f-string renders a value. *)
Definition py_str (v : pyval) : string :=
  match v with
  | PStr s => s
  | _ => py_repr v
  end.

(** [v != s] for a [str] literal [s]. *)
Definition py_ne_str (v : pyval) (s : string) : bool :=
  match v with
  | PStr s' => negb (String.eqb s' s)
  | _ => true
  end.

Fixpoint dict_get (items : list (string * pyval)) (k : string) : option pyval :=
  match items with
  | [] => None
  | (k', v) :: items' => if String.eqb k' k then Some v else dict_get items' k
  end.

Fixpoint string_chars (s : string) : list pyval :=
  match s with
  | EmptyString => []
  | String c s' => PStr (String c EmptyString) :: string_chars s'
  end.

(** ** Exceptions *)

Inductive exn : Type :=
| CalledProcessError (returncode : Z) (cmd : list string) (stderr : string)
| TimeoutExpired (cmd : list string) (timeout : Z)
| FileNotFoundError (msg : string)
| JSONDecodeError (msg : string)
| PyError (cls : string) (msg : string).

Definition repr_str_list (l : list string) : string :=
  "[" +:+ str_join ", " (map py_repr_str l) +:+ "]".

(** [str(e)]. For [CalledProcessError] this is the text of a positive exit
    status; the program never renders that exception. *)
Definition exn_str (e : exn) : string :=
  match e with
  | CalledProcessError rc cmd _ =>
      "Command '" +:+ repr_str_list cmd +:+ "' returned non-zero exit status " +:+ pretty rc +:+ "."
  | TimeoutExpired cmd timeout =>
      "Command '" +:+ repr_str_list cmd +:+ "' timed out after " +:+ pretty timeout +:+ " seconds"
  | FileNotFoundError msg => msg
  | JSONDecodeError msg => msg
  | PyError _ msg => msg
  end.

Inductive result (A : Type) : Type :=
| Ok (a : A)
| Raise (e : exn).
Arguments Ok {A} a.
Arguments Raise {A} e.

(** ** The world *)

(** The store file [data/blocklist.json] as [open] and [json.load] see it:
    absent; text that is not JSON (with the decoder's complaint); there
    but not readable as text, so that reading raises an error of class
    [cls] other than those two (bytes that are not text, say) while
    writing still works; or a JSON document. A document stands for every
    text that decodes to it, whatever its layout. *)
Inductive file_state : Type :=
| Missing
| Garbage (error : string)
| Unreadable (cls error : string)
| Json (doc : pyval).

(** A line of [logs/actions.log]: a record of the [logging] module, or an
    object written by [log_action]. *)
Inductive log_line : Type :=
| LogRecord (level : string) (msg : string)
| JsonLine (v : pyval).

(** What a launched process does: it cannot be started (an [OSError] of
    class [cls]), it ends after [elapsed] microseconds, or it never ends. *)
Inductive process : Type :=
| SpawnFails (cls msg : string)
| Exits (elapsed : Z) (returncode : Z) (stderr : string)
| Hangs.

(** Instants are microseconds since 0001-01-01T00:00:00, the least
    [datetime]. [host n argv] is the behaviour of the [n]-th process the
    program launches when it is launched with [argv]. *)
Record world : Type := World {
  blocklist_file : file_state;
  actions_log : list log_line;
  clock : Z;
  spawned : nat;
  host : nat -> list string -> process
}.

Definition M (A : Type) : Type := world -> result A * world.

Definition ret {A} (a : A) : M A := fun w => (Ok a, w).

Definition raise {A} (e : exn) : M A := fun w => (Raise e, w).

Definition bind {A B} (c : M A) (k : A -> M B) : M B :=
  fun w =>
    match c w with
    | (Ok a, w') => k a w'
    | (Raise e, w') => (Raise e, w')
    end.

(** [try: c  except Exception as e: h e]; a handler re-raises what its
    [except] clauses do not name. Effects of [c] before the exception stay. *)
Definition try_except {A} (c : M A) (h : exn -> M A) : M A :=
  fun w =>
    match c w with
    | (Ok a, w') => (Ok a, w')
    | (Raise e, w') => h e w'
    end.

Notation "x <- c ;; k" := (bind c (fun x => k))
  (at level 100, c at next level, right associativity).
Notation "'let*' pat := c 'in' k" := (bind c (fun x => match x with pat => k end))
  (at level 10, pat pattern, c at level 100, k at level 200).
Notation "c ;;; k" := (bind c (fun _ => k))
  (at level 100, right associativity).

(** ** Library functions the program calls *)

Definition MICROSECONDS : Z := 1000000.

(** The greatest [datetime], 9999-12-31T23:59:59.999999: day 3652059 of
    the calendar ends here. *)
Definition DATETIME_MAX : Z := 3652059 * 86400 * MICROSECONDS - 1.

(** A [datetime] is naive (no offset) or aware; [datetime.now()] is naive. *)
Inductive datetime : Type :=
| Naive (us : Z)
| Aware (us : Z).

(** The text format of instants is the [datetime] module's, not the
    program's: [isoformat] renders a naive instant, [fromisoformat] reads
    a text back or rejects it. *)
Class DateTime : Type := {
  isoformat : Z -> string;
  fromisoformat : string -> option datetime
}.

Definition get_world : M world := fun w => (Ok w, w).

Definition put_blocklist_file (f : file_state) : M unit :=
  fun w => (Ok tt, World f (actions_log w) (clock w) (spawned w) (host w)).

Definition write_actions_log (l : log_line) : M unit :=
  fun w => (Ok tt, World (blocklist_file w) (actions_log w ++ [l]) (clock w) (spawned w) (host w)).

Definition elapse (us : Z) : M unit :=
  fun w => (Ok tt, World (blocklist_file w) (actions_log w) (clock w + us) (spawned w) (host w)).

(** Takes the behaviour of the next process from the host. *)
Definition launch (argv : list string) : M process :=
  fun w => (Ok (host w (spawned w) argv),
            World (blocklist_file w) (actions_log w) (clock w) (S (spawned w)) (host w)).

(** [logging.error] and [logging.info]: the handlers configured at start
    write the record to [logs/actions.log] (and to the console). *)
Definition logging_error (msg : string) : M unit := write_actions_log (LogRecord "ERROR" msg).
Definition logging_info (msg : string) : M unit := write_actions_log (LogRecord "INFO" msg).

Definition datetime_now : M Z := fun w => (Ok (clock w), w).

Definition time_sleep (seconds : Z) : M unit := elapse (seconds * MICROSECONDS).

(** The arguments of a command line must all be [str]. *)
Fixpoint argv_of (args : list pyval) : result (list string) :=
  match args with
  | [] => Ok []
  | PStr s :: args' =>
      match argv_of args' with
      | Ok l => Ok (s :: l)
      | Raise e => Raise e
      end
  | v :: _ =>
      Raise (PyError "TypeError"
               ("expected str, bytes or os.PathLike object, not " +:+ py_type_name v))
  end.

(** [subprocess.run(args, capture_output=True, text=True, check=True,
    timeout=timeout)] with [timeout] in seconds: a process that has not
    ended when the timeout expires is killed and [TimeoutExpired] is
    raised; with [check], a non-zero exit status raises
    [CalledProcessError]. The clock is moved by the time the process
    ran until it ended or the wait was over; what the call itself takes
    beyond that (to start the process, to kill it and to collect it) is
    not counted, so the clock is no measure of the length of a call. *)
Definition subprocess_run (args : list pyval) (timeout : Z) : M unit :=
  match argv_of args with
  | Raise e => raise e
  | Ok argv =>
      p <- launch argv ;;
      match p with
      | SpawnFails cls msg => raise (PyError cls msg)
      | Hangs => elapse (timeout * MICROSECONDS) ;;; raise (TimeoutExpired argv timeout)
      | Exits elapsed returncode stderr =>
          if timeout * MICROSECONDS <? elapsed
          then elapse (timeout * MICROSECONDS) ;;; raise (TimeoutExpired argv timeout)
          else elapse elapsed ;;;
               if returncode =? 0 then ret tt
               else raise (CalledProcessError returncode argv stderr)
      end
  end.

(** [sep.join(items)]. *)
Fixpoint py_join_items (items : list pyval) : result (list string) :=
  match items with
  | [] => Ok []
  | PStr s :: items' =>
      match py_join_items items' with
      | Ok l => Ok (s :: l)
      | Raise e => Raise e
      end
  | v :: _ =>
      Raise (PyError "TypeError"
               ("sequence item: expected str instance, " +:+ py_type_name v +:+ " found"))
  end.

Definition py_join (sep : string) (items : list pyval) : M string :=
  match py_join_items items with
  | Ok l => ret (str_join sep l)
  | Raise e => raise e
  end.

(** [v[k]] for a [str] key [k]. *)
Definition py_getitem (v : pyval) (k : string) : M pyval :=
  match v with
  | PDict items =>
      match dict_get items k with
      | Some x => ret x
      | None => raise (PyError "KeyError" (py_repr_str k))
      end
  | PList _ => raise (PyError "TypeError" "list indices must be integers or slices, not str")
  | PStr _ => raise (PyError "TypeError" "string indices must be integers")
  | _ => raise (PyError "TypeError" ("'" +:+ py_type_name v +:+ "' object is not subscriptable"))
  end.

(** The items a [for] loop over [v] visits. *)
Definition py_iter (v : pyval) : M (list pyval) :=
  match v with
  | PList items => ret items
  | PDict items => ret (map (fun kv => PStr (fst kv)) items)
  | PStr s => ret (string_chars s)
  | _ => raise (PyError "TypeError" ("'" +:+ py_type_name v +:+ "' object is not iterable"))
  end.

(** [v.append(x)], returning the list after the call. *)
Definition py_append (v x : pyval) : M pyval :=
  match v with
  | PList items => ret (PList (items ++ [x]))
  | _ => raise (PyError "AttributeError"
                  ("'" +:+ py_type_name v +:+ "' object has no attribute 'append'"))
  end.

(** [json.load(open(BLOCKLIST_FILE, 'r'))]. *)
Definition json_load_blocklist_file : M pyval :=
  w <- get_world ;;
  match blocklist_file w with
  | Missing =>
      raise (FileNotFoundError "[Errno 2] No such file or directory: 'data/blocklist.json'")
  | Garbage error => raise (JSONDecodeError error)
  | Unreadable cls error => raise (PyError cls error)
  | Json doc => ret doc
  end.

(** ** The program *)

Definition FIREWALL_CMD : string := "/sbin/iptables".

Section Program.

Context `{DateTime}.

Definition execute_firewall_command (cmd : list pyval) : M (bool * string) :=
  try_except
    (subprocess_run (PStr "sudo" :: cmd) 10 ;;;
     ret (true, EmptyString))
    (fun e =>
       match e with
       | CalledProcessError _ _ stderr =>
           joined <- py_join " " cmd ;;
           let error_msg := "Command failed (" +:+ joined +:+ "): " +:+ stderr in
           logging_error error_msg ;;;
           ret (false, error_msg)
       | _ =>
           let error_msg := "Unexpected error: " +:+ exn_str e in
           logging_error error_msg ;;;
           ret (false, error_msg)
       end).

Definition load_blocklist : M pyval :=
  try_except json_load_blocklist_file
    (fun e =>
       match e with
       | FileNotFoundError _ | JSONDecodeError _ => ret (PList [])
       | _ => raise e
       end).

(** [json.dump] accepts every value the program passes: what [json.load]
    returned, extended with entries built by [log_action]. *)
Definition save_blocklist (data : pyval) : M unit :=
  put_blocklist_file (Json data).

Definition log_action (ip : pyval) (action : string) : M unit :=
  now <- datetime_now ;;
  let timestamp := isoformat now in
  let log_entry := PDict [("time", PStr timestamp); ("ip", ip); ("action", PStr action)] in
  write_actions_log (JsonLine log_entry) ;;;
  blocklist <- try_except load_blocklist
                 (fun e =>
                    logging_error ("Error loading blocklist: " +:+ exn_str e) ;;;
                    ret (PList [])) ;;
  blocklist <- py_append blocklist log_entry ;;
  save_blocklist blocklist.

Definition block_ip (ip : pyval) : M bool :=
  let* (success_in, _) :=
    execute_firewall_command
      [PStr FIREWALL_CMD; PStr "-A"; PStr "INPUT"; PStr "-s"; ip; PStr "-j"; PStr "DROP"] in
  let* (success_out, _) :=
    execute_firewall_command
      [PStr FIREWALL_CMD; PStr "-A"; PStr "OUTPUT"; PStr "-d"; ip; PStr "-j"; PStr "DROP"] in
  (if success_in || success_out then log_action ip "blocked" else ret tt) ;;;
  ret (success_in && success_out).

Definition unblock_ip (ip : pyval) : M bool :=
  let* (success_in, _) :=
    execute_firewall_command
      [PStr FIREWALL_CMD; PStr "-D"; PStr "INPUT"; PStr "-s"; ip; PStr "-j"; PStr "DROP"] in
  let* (success_out, _) :=
    execute_firewall_command
      [PStr FIREWALL_CMD; PStr "-D"; PStr "OUTPUT"; PStr "-d"; ip; PStr "-j"; PStr "DROP"] in
  (if success_in || success_out then log_action ip "unblocked" else ret tt) ;;;
  ret (success_in && success_out).

(** *** Auto-unblock *)

Definition datetime_fromisoformat (v : pyval) : M datetime :=
  match v with
  | PStr s =>
      match fromisoformat s with
      | Some d => ret d
      | None => raise (PyError "ValueError" ("Invalid isoformat string: " +:+ py_repr_str s))
      end
  | _ => raise (PyError "TypeError" "fromisoformat: argument must be str")
  end.

(** [d + timedelta(hours=hours)]. *)
Definition datetime_add_hours (d : datetime) (hours : Z) : M datetime :=
  let delta := hours * 3600 * MICROSECONDS in
  let us := match d with Naive us | Aware us => us end in
  if DATETIME_MAX <? us + delta
  then raise (PyError "OverflowError" "date value out of range")
  else ret (match d with Naive _ => Naive (us + delta) | Aware _ => Aware (us + delta) end).

(** [now > d] for the naive [now]. *)
Definition datetime_gt (now : Z) (d : datetime) : M bool :=
  match d with
  | Naive us => ret (us <? now)
  | Aware _ => raise (PyError "TypeError" "can't compare offset-naive and offset-aware datetimes")
  end.

(** The body of the loop of [check_expired_blocks]; returns
    [updated_list] as the iteration leaves it. *)
Definition check_entry (now : Z) (entry : pyval) (updated_list : list pyval) : M (list pyval) :=
  action <- py_getitem entry "action" ;;
  if py_ne_str action "blocked" then ret (updated_list ++ [entry])
  else
    time <- py_getitem entry "time" ;;
    blocked_time <- datetime_fromisoformat time ;;
    unblock_time <- datetime_add_hours blocked_time 1 ;;
    expired <- datetime_gt now unblock_time ;;
    if expired then
      ip <- py_getitem entry "ip" ;;
      unblocked <- unblock_ip ip ;;
      if unblocked then
        ip <- py_getitem entry "ip" ;;
        logging_info ("Auto-unblocked IP: " +:+ py_str ip) ;;;
        ret updated_list
      else ret (updated_list ++ [entry])
    else ret (updated_list ++ [entry]).

(** [for entry in blocklist: ...]. *)
Fixpoint check_entries (now : Z) (blocklist : list pyval) (updated_list : list pyval)
  : M (list pyval) :=
  match blocklist with
  | [] => ret updated_list
  | entry :: rest =>
      updated_list <- check_entry now entry updated_list ;;
      check_entries now rest updated_list
  end.

Definition check_expired_blocks : M unit :=
  blocklist <- load_blocklist ;;
  now <- datetime_now ;;
  entries <- py_iter blocklist ;;
  updated_list <- check_entries now entries [] ;;
  save_blocklist (PList updated_list).

(** [self.check_interval], set by [AutoUnblocker.__init__]. *)
Definition check_interval : Z := 60.

(** One turn of the [while] loop of [AutoUnblocker.run]. *)
Definition run_once : M unit :=
  try_except check_expired_blocks
    (fun e => logging_error ("Auto-unblock error: " +:+ exn_str e)) ;;;
  time_sleep check_interval.

(** The first [turns] turns of [AutoUnblocker.run]. *)
Fixpoint run (turns : nat) : M unit :=
  match turns with
  | O => ret tt
  | S n => run_once ;;; run n
  end.

(** *** Blocked entries *)

(** An entry whose ['action'] is ['blocked']: the test
    [entry['action'] != 'blocked'] of the sweep fails on it. *)
Definition is_blocked_row (entry : pyval) : bool :=
  match entry with
  | PDict items =>
      match dict_get items "action" with
      | Some action => negb (py_ne_str action "blocked")
      | None => false
      end
  | _ => false
  end.

(** The entries of a log that the sweep takes for blocks. *)
Definition blocked_rows (blocklist : list pyval) : list pyval :=
  List.filter is_blocked_row blocklist.

End Program.

(** ** The text of instants, for worked examples *)

(** [datetime.isoformat] of a naive instant, YYYY-MM-DDTHH:MM:SS with
    .ffffff when the microseconds are not zero, and the reading of such
    texts. Years have four digits, so this covers instants up to
    [DATETIME_MAX]. *)
Module IsoText.

(** Year, month and day of the day [z] days after 0001-01-01. *)
Definition civil_of_days (z0 : Z) : Z * Z * Z :=
  let z := z0 + 306 in
  let era := z / 146097 in
  let doe := z - era * 146097 in
  let yoe := (doe - doe / 1460 + doe / 36524 - doe / 146096) / 365 in
  let doy := doe - (365 * yoe + yoe / 4 - yoe / 100) in
  let mp := (5 * doy + 2) / 153 in
  let d := doy - (153 * mp + 2) / 5 + 1 in
  let m := if mp <? 10 then mp + 3 else mp - 9 in
  let y := yoe + era * 400 + (if m <=? 2 then 1 else 0) in
  (y, m, d).

Definition days_of_civil (y m d : Z) : Z :=
  let y' := if m <=? 2 then y - 1 else y in
  let era := y' / 400 in
  let yoe := y' - era * 400 in
  let doy := (153 * (if 2 <? m then m - 3 else m + 9) + 2) / 5 + d - 1 in
  let doe := yoe * 365 + yoe / 4 - yoe / 100 + doy in
  era * 146097 + doe - 306.

Fixpoint zeros (n : nat) : string :=
  match n with
  | O => EmptyString
  | S n' => "0" +:+ zeros n'
  end.

Definition digits (width : nat) (n : Z) : string :=
  let s := pretty n in
  zeros (width - String.length s) +:+ s.

Definition format (t : Z) : string :=
  let day := t / (86400 * MICROSECONDS) in
  let rest := t mod (86400 * MICROSECONDS) in
  let '(y, m, d) := civil_of_days day in
  let secs := rest / MICROSECONDS in
  let us := rest mod MICROSECONDS in
  digits 4 y +:+ "-" +:+ digits 2 m +:+ "-" +:+ digits 2 d +:+ "T"
    +:+ digits 2 (secs / 3600) +:+ ":" +:+ digits 2 (secs / 60 mod 60) +:+ ":"
    +:+ digits 2 (secs mod 60)
    +:+ (if us =? 0 then EmptyString else "." +:+ digits 6 us).

Definition digit_value (c : ascii) : option Z :=
  let n := nat_of_ascii c in
  if Nat.leb 48 n && Nat.leb n 57 then Some (Z.of_nat n - 48) else None.

Fixpoint number_from (acc : Z) (s : string) : option Z :=
  match s with
  | EmptyString => Some acc
  | String c s' =>
      match digit_value c with
      | Some v => number_from (acc * 10 + v) s'
      | None => None
      end
  end.

(** The number written by the [len] digits of [s] from position [pos]. *)
Definition field (pos len : nat) (s : string) : option Z :=
  let f := String.substring pos len s in
  if Nat.eqb (String.length f) len then number_from 0 f else None.

Definition sep_at (pos : nat) (c : ascii) (s : string) : bool :=
  match String.get pos s with
  | Some c' => Ascii.eqb c c'
  | None => false
  end.

Definition parse (s : string) : option datetime :=
  let n := String.length s in
  if negb (Nat.eqb n 19 || Nat.eqb n 26) then None
  else if negb (sep_at 4 "-" s && sep_at 7 "-" s && sep_at 10 "T" s
                && sep_at 13 ":" s && sep_at 16 ":" s) then None
  else if Nat.eqb n 26 && negb (sep_at 19 "." s) then None
  else
    match field 0 4 s, field 5 2 s, field 8 2 s, field 11 2 s, field 14 2 s, field 17 2 s,
          (if Nat.eqb n 26 then field 20 6 s else Some 0) with
    | Some y, Some m, Some d, Some hh, Some mm, Some ss, Some us =>
        if (1 <=? y) && (1 <=? m) && (m <=? 12) && (1 <=? d) && (hh <? 24) && (mm <? 60)
           && (ss <? 60)
           && (let '(y', m', d') := civil_of_days (days_of_civil y m d) in
               (y' =? y) && (m' =? m) && (d' =? d))
        then Some (Naive (((days_of_civil y m d * 24 + hh) * 60 + mm) * 60 * MICROSECONDS
                          + ss * MICROSECONDS + us))
        else None
    | _, _, _, _, _, _, _ => None
    end.

Definition iso : DateTime := {| isoformat := format; fromisoformat := parse |}.

End IsoText.

(** ** Vocabulary of the properties *)

Section Vocabulary.

Context `{DateTime}.

(** The entry [log_action] builds at instant [now]. *)
Definition log_entry_at (now : Z) (ip : pyval) (action : string) : pyval :=
  PDict [("time", PStr (isoformat now)); ("ip", ip); ("action", PStr action)].

(** The time-to-live of a block, [timedelta(hours=1)]. *)
Definition TTL : Z := 1 * 3600 * MICROSECONDS.

(** The store holds an event log: a JSON array, or nothing that
    [log_action] can read (which it takes for the empty log). *)
Definition holds_log (f : file_state) : Prop :=
  match f with
  | Json (PList _) | Missing | Garbage _ | Unreadable _ _ => True
  | Json _ => False
  end.

(** The events of the store, in order. *)
Definition stored_events (f : file_state) : list pyval :=
  match f with
  | Json (PList items) => items
  | _ => []
  end.

(** What a sweep loads and iterates: the first lines of
    [check_expired_blocks]. *)
Definition snapshot : M (list pyval) :=
  blocklist <- load_blocklist ;;
  py_iter blocklist.

(** An entry whose action is present and is not ['blocked']. *)
Definition is_other_row (entry : pyval) : bool :=
  match entry with
  | PDict items =>
      match dict_get items "action" with
      | Some action => py_ne_str action "blocked"
      | None => false
      end
  | _ => false
  end.

(** The command lines of the four rules. *)
Definition rule (mode chain flag : string) (ip : pyval) : list pyval :=
  [PStr FIREWALL_CMD; PStr mode; PStr chain; PStr flag; ip; PStr "-j"; PStr "DROP"].

(** [Rewrite(Load())]: the loaded log written back. *)
Definition rewrite_loaded : M unit :=
  data <- load_blocklist ;;
  save_blocklist data.

(** The shape [block_ip] and [unblock_ip] share: both rules with [mode],
    then the record of [action]. *)
Definition apply_both (mode action : string) (ip : pyval) : M bool :=
  let* (success_in, _) := execute_firewall_command (rule mode "INPUT" "-s" ip) in
  let* (success_out, _) := execute_firewall_command (rule mode "OUTPUT" "-d" ip) in
  (if success_in || success_out then log_action ip action else ret tt) ;;;
  ret (success_in && success_out).

(** The world after a reversal that succeeded at [w2] was announced. *)
Definition announced (ip : pyval) (w2 : world) : world :=
  World (blocklist_file w2)
        (actions_log w2 ++ [LogRecord "INFO" ("Auto-unblocked IP: " +:+ py_str ip)])
        (clock w2) (spawned w2) (host w2).

(** The store of [w'] holds the events of the store of [w], in order,
    and maybe more after them. *)
Definition grows (w w' : world) : Prop :=
  exists extra,
    stored_events (blocklist_file w') = stored_events (blocklist_file w) ++ extra.

End Vocabulary.

(** ** Worked worlds *)

Module Examples.

Definition succeeds : process := Exits 20000 0 EmptyString.

Definition refuses : process :=
  Exits 20000 1 "iptables: Bad rule (does a matching rule exist in that chain?).".

Definition slow : process := Exits 12000000 0 EmptyString.

(** The processes behave as listed, in launch order; later ones refuse. *)
Definition script (l : list process) : nat -> list string -> process :=
  fun n _ => nth n l refuses.

(** 2024-05-01T12:00:00. *)
Definition T0 : Z := 63850161600000000.

Definition addr : pyval := PStr "198.51.100.7".

Definition entry (time ip action : string) : pyval :=
  PDict [("time", PStr time); ("ip", PStr ip); ("action", PStr action)].

Definition old_block : pyval := entry "2024-05-01T10:00:00" "198.51.100.7" "blocked".
Definition fresh_block : pyval := entry "2024-05-01T11:30:00" "203.0.113.9" "blocked".
Definition old_unblock : pyval := entry "2024-05-01T09:00:00" "192.0.2.44" "unblocked".

Definition world_with (f : file_state) (l : list process) : world :=
  World f [] T0 0 (script l).

Definition log3 : file_state := Json (PList [old_unblock; old_block; fresh_block]).

Definition no_time_block : pyval :=
  PDict [("ip", PStr "203.0.113.9"); ("action", PStr "blocked")].

Definition log_broken : file_state := Json (PList [old_unblock; old_block; no_time_block]).

End Examples.

(** ** DNS lookup *)

(** An answer of [socket.getaddrinfo]: family, type, protocol, canonical
    name and socket address, which starts with the text of the address
    (the port and, for IPv6, flow and scope follow). *)
Record addrinfo : Type := AddrInfo {
  ai_family : Z;
  ai_type : Z;
  ai_proto : Z;
  ai_canonname : string;
  ai_sockaddr : string * list Z
}.

(** What the resolver answers for a host name at an instant: answers, or
    the error it raises. *)
Class Resolver : Type := {
  getaddrinfo : Z -> string -> result (list addrinfo)
}.

Section Lookup.

Context `{Resolver}.

(** [socket.getaddrinfo(host, None)]. *)
Definition socket_getaddrinfo (host : string) : M (list addrinfo) :=
  fun w => (getaddrinfo (clock w) host, w).

(** [list({result[4][0] for result in results})]: the addresses as a
    set, listed in the order of the set. *)
Definition address_set (results : list addrinfo) : list string :=
  elements (list_to_set (map (fun result => fst (ai_sockaddr result)) results) : gset string).

Definition lookup_ips (domain : string) : M (list string) :=
  try_except
    ((if String.eqb domain EmptyString
      then raise (PyError "ValueError" "Domain cannot be empty")
      else ret tt) ;;;
     results <- socket_getaddrinfo domain ;;
     let ips := address_set results in
     ret (match ips with [] => [] | _ :: _ => ips end))
    (fun e =>
       logging_error ("DNS lookup failed for " +:+ domain +:+ ": " +:+ exn_str e) ;;;
       ret []).

End Lookup.

(** ** The pages that block and unblock *)

(** One run of a Streamlit script: it reads the values the widgets have
    in this run, writes elements to the page, keeps [st.session_state]
    from run to run, and ends when the script is over, when an exception
    escapes, or at [st.rerun()], which stops the run at once. *)
Inductive element : Type :=
| Subheader (text : string)
| Success (text : string)
| ErrorBox (text : string)
| Warning (text : string).

(** The text fields, the buttons clicked and the option chosen in this
    run. *)
Record widgets : Type := Widgets {
  manual_ip : string;
  block_clicked : bool;
  unblock_clicked : bool;
  domain_input : string;
  lookup_clicked : bool;
  ip_select : option string;
  block_selected_clicked : bool
}.

Record ui_state : Type := Ui {
  page : list element;
  domain_ips : list string
}.

Inductive outcome (A : Type) : Type :=
| Done (a : A)
| Raised (e : exn)
| Rerun.
Arguments Done {A} a.
Arguments Raised {A} e.
Arguments Rerun {A}.

Definition Script (A : Type) : Type := ui_state -> world -> outcome A * ui_state * world.

Definition st_ret {A} (a : A) : Script A := fun u w => (Done a, u, w).

Definition st_bind {A B} (c : Script A) (k : A -> Script B) : Script B :=
  fun u w =>
    match c u w with
    | (Done a, u', w') => k a u' w'
    | (Raised e, u', w') => (Raised e, u', w')
    | (Rerun, u', w') => (Rerun, u', w')
    end.

(** A call of a function of the program from a page. *)
Definition st_call {A} (c : M A) : Script A :=
  fun u w =>
    match c w with
    | (Ok a, w') => (Done a, u, w')
    | (Raise e, w') => (Raised e, u, w')
    end.

Definition st_write (e : element) : Script unit :=
  fun u w => (Done tt, Ui (page u ++ [e]) (domain_ips u), w).

Definition st_rerun : Script unit := fun u w => (Rerun, u, w).

Definition get_domain_ips : Script (list string) := fun u w => (Done (domain_ips u), u, w).

Definition set_domain_ips (ips : list string) : Script unit :=
  fun u w => (Done tt, Ui (page u) ips, w).

(** [st.selectbox(label, options)]: the option chosen in this run, the
    first option when none of them is chosen. *)
Definition st_selectbox (options : list string) (chosen : option string) : string :=
  match chosen with
  | Some s => if existsb (String.eqb s) options then s else hd EmptyString options
  | None => hd EmptyString options
  end.

Notation "x <~ c ;; k" := (st_bind c (fun x => k))
  (at level 100, c at next level, right associativity).
Notation "c ;;~ k" := (st_bind c (fun _ => k))
  (at level 100, right associativity).

Section Pages.

Context `{DateTime} `{Resolver}.

Definition show_manual_blocking (f : widgets) : Script unit :=
  st_write (Subheader "Manual IP Management") ;;~
  let ip := manual_ip f in
  (if block_clicked f then
     if negb (String.eqb ip EmptyString) then
       blocked <~ st_call (block_ip (PStr ip)) ;;
       if blocked then
         st_write (Success ("IP " +:+ ip +:+ " blocked successfully!")) ;;~
         st_rerun
       else st_write (ErrorBox ("Failed to block IP " +:+ ip))
     else st_write (ErrorBox "Please enter a valid IP address")
   else st_ret tt) ;;~
  (if unblock_clicked f then
     if negb (String.eqb ip EmptyString) then
       unblocked <~ st_call (unblock_ip (PStr ip)) ;;
       if unblocked then
         st_write (Success ("IP " +:+ ip +:+ " unblocked successfully!")) ;;~
         st_rerun
       else st_write (ErrorBox ("Failed to unblock IP " +:+ ip))
     else st_write (ErrorBox "Please enter a valid IP address")
   else st_ret tt).

Definition show_domain_lookup (f : widgets) : Script unit :=
  st_write (Subheader "Domain IP Lookup") ;;~
  let domain := domain_input f in
  (if lookup_clicked f then
     if negb (String.eqb domain EmptyString) then
       ips <~ st_call (lookup_ips domain) ;;
       match ips with
       | _ :: _ =>
           set_domain_ips ips ;;~
           st_write (Success ("Found " +:+ pretty (length ips) +:+ " IP addresses"))
       | [] => st_write (Warning "No IP addresses found for this domain")
       end
     else st_write (Warning "Please enter a domain name")
   else st_ret tt) ;;~
  options <~ get_domain_ips ;;
  match options with
  | _ :: _ =>
      let selected_ip := st_selectbox options (ip_select f) in
      if block_selected_clicked f then
        blocked <~ st_call (block_ip (PStr selected_ip)) ;;
        if blocked then
          st_write (Success ("IP " +:+ selected_ip +:+ " blocked successfully!")) ;;~
          st_rerun
        else st_write (ErrorBox ("Failed to block IP " +:+ selected_ip))
      else st_ret tt
  | [] => st_ret tt
  end.

End Pages.

(** ** The frame of the report *)

(** A cell of a data frame: a value as it was loaded, the gap left by a
    missing key, or what [pd.to_datetime] makes of a cell. *)
Inductive cell : Type :=
| Obj (v : pyval)
| NaN
| Timestamp (t : Z)
| NaT.

(** A frame: its columns, and its rows with a cell for each column. The
    cells keep the loaded values; the number types pandas chooses for a
    column are not traced. *)
Record DataFrame : Type := Frame {
  columns : list string;
  rows : list (list (string * cell))
}.

(** What pandas does beyond the frame of a list of [dict]s:
    [pd.DataFrame] of other data, and [pd.to_datetime] of a column, which
    converts every cell or raises. *)
Class Pandas : Type := {
  DataFrame_of : pyval -> result DataFrame;
  to_datetime : list cell -> result (list cell)
}.

(** [pd.DataFrame()]. *)
Definition empty_frame : DataFrame := Frame [] [].

(** [df.empty]: an axis of length zero. *)
Definition frame_empty (df : DataFrame) : bool :=
  match columns df, rows df with
  | [], _ => true
  | _, [] => true
  | _ :: _, _ :: _ => false
  end.

Fixpoint as_dicts (items : list pyval) : option (list (list (string * pyval))) :=
  match items with
  | [] => Some []
  | PDict d :: items' =>
      match as_dicts items' with
      | Some ds => Some (d :: ds)
      | None => None
      end
  | _ :: _ => None
  end.

Definition has_column (c : string) (cols : list string) : bool :=
  existsb (String.eqb c) cols.

Definition add_column (c : string) (cols : list string) : list string :=
  if has_column c cols then cols else cols ++ [c].

Fixpoint add_keys (cols : list string) (d : list (string * pyval)) : list string :=
  match d with
  | [] => cols
  | (k, _) :: d' => add_keys (add_column k cols) d'
  end.

(** The keys of the [dict]s, in the order they first occur. *)
Fixpoint collect_columns (cols : list string) (dicts : list (list (string * pyval)))
  : list string :=
  match dicts with
  | [] => cols
  | d :: dicts' => collect_columns (add_keys cols d) dicts'
  end.

Definition cell_of (d : list (string * pyval)) (c : string) : cell :=
  match dict_get d c with
  | Some v => Obj v
  | None => NaN
  end.

Definition row_of (cols : list string) (d : list (string * pyval)) : list (string * cell) :=
  map (fun c => (c, cell_of d c)) cols.

(** [pd.DataFrame(dicts)] for a list of [dict]s: one row for each. *)
Definition frame_of_dicts (dicts : list (list (string * pyval))) : DataFrame :=
  let cols := collect_columns [] dicts in
  Frame cols (map (row_of cols) dicts).

Fixpoint row_get (row : list (string * cell)) (c : string) : cell :=
  match row with
  | [] => NaN
  | (k, x) :: row' => if String.eqb k c then x else row_get row' c
  end.

Fixpoint row_put (c : string) (x : cell) (row : list (string * cell))
  : list (string * cell) :=
  match row with
  | [] => [(c, x)]
  | (k, y) :: row' => if String.eqb k c then (k, x) :: row' else (k, y) :: row_put c x row'
  end.

(** [cell == s] for a [str] literal [s]. *)
Definition cell_eq_str (x : cell) (s : string) : bool :=
  match x with
  | Obj v => negb (py_ne_str v s)
  | _ => false
  end.

Section Report.

Context `{Pandas}.

Definition pd_DataFrame (data : pyval) : M DataFrame :=
  fun w =>
    (match data with
     | PList items =>
         match as_dicts items with
         | Some dicts => Ok (frame_of_dicts dicts)
         | None => DataFrame_of data
         end
     | _ => DataFrame_of data
     end, w).

Definition pd_to_datetime (column : list cell) : M (list cell) :=
  fun w => (to_datetime column, w).

(** [df[c]]. *)
Definition frame_getitem (df : DataFrame) (c : string) : M (list cell) :=
  if has_column c (columns df)
  then ret (map (fun row => row_get row c) (rows df))
  else raise (PyError "KeyError" (py_repr_str c)).

(** [df[c] = values]. *)
Definition frame_setitem (df : DataFrame) (c : string) (values : list cell) : M DataFrame :=
  if Nat.eqb (length values) (length (rows df))
  then ret (Frame (add_column c (columns df)) (zip_with (fun row x => row_put c x row) (rows df) values))
  else raise (PyError "ValueError"
                ("Length of values (" +:+ pretty (length values)
                   +:+ ") does not match length of index ("
                   +:+ pretty (length (rows df)) +:+ ")")).

(** [df[df[c] == s]]. *)
Definition frame_where_eq (df : DataFrame) (c s : string) : M DataFrame :=
  if has_column c (columns df)
  then ret (Frame (columns df)
                  (List.filter (fun row => cell_eq_str (row_get row c) s) (rows df)))
  else raise (PyError "KeyError" (py_repr_str c)).

Definition get_blocked_ips_data : M DataFrame :=
  try_except
    (blocklist <- load_blocklist ;;
     df <- pd_DataFrame blocklist ;;
     if negb (frame_empty df) then
       time <- frame_getitem df "time" ;;
       converted <- pd_to_datetime time ;;
       frame_setitem df "time" converted
     else ret df)
    (fun e =>
       logging_error ("Error loading blocked IP data: " +:+ exn_str e) ;;;
       ret empty_frame).

(** [visualize_blocked_ips] up to the frame [blocked] of the blocks
    reported as in force, from which it draws its chart and its two
    counts; none when it stops at one of its warnings. *)
Definition visualize_blocked_ips : Script (option DataFrame) :=
  df <~ st_call get_blocked_ips_data ;;
  if frame_empty df then
    st_write (Warning "No blocked IPs to visualize.") ;;~
    st_ret None
  else
    blocked <~ st_call (frame_where_eq df "action" "blocked") ;;
    if frame_empty blocked then
      st_write (Warning "No currently blocked IPs.") ;;~
      st_ret None
    else st_ret (Some blocked).

End Report.

(** ** Vocabulary of the further properties *)

Section FurtherVocabulary.

Context `{DateTime}.

(** The audit log of [w'] is the one of [w] with maybe more lines after
    it. *)
Definition log_extends (w w' : world) : Prop :=
  exists more, actions_log w' = actions_log w ++ more.

(** An entry on which the loop of [check_expired_blocks] raises before it
    does anything else: it is no [dict] or has no ['action']; or it is
    ['blocked'] and its ['time'] is absent, is no [str], is no ISO text,
    carries an offset, or is within an hour of the greatest [datetime]. *)
Definition ill_formed (entry : pyval) : bool :=
  match entry with
  | PDict items =>
      match dict_get items "action" with
      | None => true
      | Some action =>
          if py_ne_str action "blocked" then false
          else
            match dict_get items "time" with
            | Some (PStr s) =>
                match fromisoformat s with
                | Some (Naive t) => DATETIME_MAX <? t + TTL
                | Some (Aware _) => true
                | None => true
                end
            | _ => true
            end
      end
  | _ => true
  end.

(** An entry the loop keeps at instant [now] without running a command:
    its action is not ['blocked'], or it is ['blocked'] since an hour at
    most. *)
Definition not_due (now : Z) (entry : pyval) : bool :=
  match entry with
  | PDict items =>
      match dict_get items "action" with
      | None => false
      | Some action =>
          if py_ne_str action "blocked" then true
          else
            match dict_get items "time" with
            | Some (PStr s) =>
                match fromisoformat s with
                | Some (Naive t) => (t + TTL <=? DATETIME_MAX) && (now <=? t + TTL)
                | _ => false
                end
            | _ => false
            end
      end
  | _ => false
  end.

End FurtherVocabulary.

Module MoreExamples.

Import Examples.

(** Blocked at T0 less one hour exactly. *)
Definition hour_old_block : pyval := entry "2024-05-01T11:00:00" "192.0.2.1" "blocked".

Definition numeric_ip_block : pyval :=
  PDict [("time", PStr "2024-05-01T10:00:00"); ("ip", PInt 3232235777);
         ("action", PStr "blocked")].

Definition log_quiet : file_state := Json (PList [old_unblock; hour_old_block; fresh_block]).

Definition log_numeric : file_state := Json (PList [old_unblock; numeric_ip_block]).

(** A store whose document is an object, not an array. *)
Definition not_a_log : file_state := Json (PDict [("blocked", PList [])]).

Definition unreadable : file_state :=
  Unreadable "PermissionError" "[Errno 13] Permission denied: 'data/blocklist.json'".

(** A store file whose bytes are not text. *)
Definition undecodable : file_state :=
  Unreadable "UnicodeDecodeError"
    "'utf-8' codec can't decode byte 0xff in position 0: invalid start byte".

(** Two answers for the one IPv4 address of the name (stream and
    datagram) and one for its IPv6 address. *)
Definition answers : list addrinfo :=
  [AddrInfo 2 1 6 EmptyString ("93.184.216.34", [0]);
   AddrInfo 2 2 17 EmptyString ("93.184.216.34", [0]);
   AddrInfo 10 1 6 EmptyString ("2606:2800:220:1:248:1893:25c8:1946", [0; 0; 0])].

Definition names : Resolver :=
  {| getaddrinfo := fun _ host =>
       if String.eqb host "example.org" then Ok answers
       else Raise (PyError "gaierror" "[Errno -2] Name or service not known") |}.

Definition no_widgets : widgets :=
  Widgets EmptyString false false EmptyString false None false.

Definition click_block (ip : string) : widgets :=
  Widgets ip true false EmptyString false None false.

Definition click_lookup (domain : string) : widgets :=
  Widgets EmptyString false false domain true None false.

Definition click_block_selected (chosen : option string) : widgets :=
  Widgets EmptyString false false EmptyString false chosen true.

Definition empty_page : ui_state := Ui [] [].

Definition offering (ips : list string) : ui_state := Ui [] ips.

(** Events whose times carry microseconds, as [log_action] writes them. *)
Definition early_unblock : pyval :=
  entry "2024-05-01T09:00:00.120000" "192.0.2.44" "unblocked".

(** Blocked five minutes before T0. *)
Definition recent_block : pyval :=
  entry "2024-05-01T11:55:00.310000" "198.51.100.7" "blocked".

Definition log_fine : file_state := Json (PList [early_unblock; recent_block]).

(** The cells of a column of ISO texts of [n] characters as instants; the
    gap of a missing key becomes [NaT]. A text of another length, or one
    that is no instant, is refused with a [ValueError] (its text is
    shortened here), another value with a [TypeError]. *)
Fixpoint convert_like (n : nat) (column : list cell) : result (list cell) :=
  match column with
  | [] => Ok []
  | x :: column' =>
      let converted :=
        match x with
        | Obj (PStr s) =>
            if Nat.eqb (String.length s) n then
              match IsoText.parse s with
              | Some (Naive t) => Ok (Timestamp t)
              | _ => Raise (PyError "ValueError" ("Unknown datetime string format: " +:+ s))
              end
            else Raise (PyError "ValueError"
                          ("time data " +:+ py_repr_str s +:+ " doesn't match format"))
        | Obj v => Raise (PyError "TypeError" (py_repr v +:+ " is not convertible to datetime"))
        | NaN | NaT => Ok NaT
        | Timestamp t => Ok (Timestamp t)
        end in
      match converted, convert_like n column' with
      | Ok y, Ok l => Ok (y :: l)
      | Raise e, _ => Raise e
      | _, Raise e => Raise e
      end
  end.

(** A pandas that takes the format of a column of texts from its first
    text, as pandas 2 does, and so refuses a column in which some ISO
    texts have microseconds and others have none. It makes frames of lists
    of [dict]s only. *)
Definition pandas2 : Pandas :=
  {| DataFrame_of := fun _ =>
       Raise (PyError "ValueError" "DataFrame constructor not properly called!");
     to_datetime := fun column =>
       match column with
       | Obj (PStr s) :: _ => convert_like (String.length s) column
       | _ => convert_like 19 column
       end |}.

(** Fifty-six minutes after T0. *)
Definition later_world (f : file_state) (l : list process) : world :=
  World f [] (T0 + 56 * 60 * MICROSECONDS) 0 (script l).

End MoreExamples.

(** ** Properties *)

Section Properties.

Context `{DateTime}.

(** *** Running computations *)

Lemma bind_ok {A B} (c : M A) (k : A -> M B) w b w' :
  bind c k w = (Ok b, w') ->
  exists a w1, c w = (Ok a, w1) /\ k a w1 = (Ok b, w').
Proof.
  unfold bind. destruct (c w) as [[a|e] w1]; [eauto | discriminate].
Qed.

Lemma bind_run {A B} (c : M A) (k : A -> M B) w a w1 :
  c w = (Ok a, w1) -> bind c k w = k a w1.
Proof. unfold bind. intros ->. reflexivity. Qed.

Lemma bind_raise {A B} (c : M A) (k : A -> M B) w e w1 :
  c w = (Raise e, w1) -> bind c k w = (Raise e, w1).
Proof. unfold bind. intros ->. reflexivity. Qed.

(** *** The executor *)

Lemma argv_of_raises args e :
  argv_of args = Raise e -> exists msg, e = PyError "TypeError" msg.
Proof.
  revert e. induction args as [|v args IH]; intros e; simpl; [discriminate|].
  destruct v; try (intros [= <-]; eauto).
  destruct (argv_of args) as [l|e']; [discriminate|].
  intros [= <-]. eauto.
Qed.

Lemma argv_of_join args argv :
  argv_of args = Ok argv -> py_join_items args = Ok argv.
Proof.
  revert argv. induction args as [|v args IH]; intros argv; simpl; [auto|].
  destruct v; try discriminate.
  destruct (argv_of args) as [l|e']; [|discriminate].
  intros [= <-]. rewrite (IH l); reflexivity.
Qed.

(** The executor never raises and never touches the store: every way a
    command can go ends in a pair of a flag and a text. *)
Lemma execute_returns cmd w :
  exists b msg w',
    execute_firewall_command cmd w = (Ok (b, msg), w') /\
    blocklist_file w' = blocklist_file w /\ host w' = host w.
Proof.
  unfold execute_firewall_command, try_except, subprocess_run.
  destruct (argv_of (PStr "sudo" :: cmd)) as [argv|e] eqn:Hargv.
  - unfold bind at 1. unfold bind at 1. unfold launch at 1.
    cbn [blocklist_file actions_log clock spawned host].
    destruct (host w (spawned w) argv) as [cls msg| elapsed rc stderr |].
    + cbn. eauto 6.
    + destruct (10 * MICROSECONDS <? elapsed); [cbn; eauto 6|].
      destruct (rc =? 0); [cbn; eauto 6|].
      cbn - [py_join String.append]. unfold py_join.
      simpl in Hargv. destruct (argv_of cmd) as [l|] eqn:Hcmd; [|discriminate].
      rewrite (argv_of_join _ _ Hcmd). cbn. eauto 6.
    + cbn. eauto 6.
  - destruct (argv_of_raises _ _ Hargv) as [msg ->]. cbn. eauto 6.
Qed.

(** *** Recording *)

Lemma load_blocklist_pure w : snd (load_blocklist w) = w.
Proof.
  unfold load_blocklist, try_except, json_load_blocklist_file, bind, get_world.
  destruct (blocklist_file w); reflexivity.
Qed.

Lemma load_blocklist_result w :
  fst (load_blocklist w) =
    match blocklist_file w with
    | Missing | Garbage _ => Ok (PList [])
    | Unreadable cls error => Raise (PyError cls error)
    | Json doc => Ok doc
    end.
Proof.
  unfold load_blocklist, try_except, json_load_blocklist_file, bind, get_world.
  destruct (blocklist_file w); reflexivity.
Qed.

Lemma load_blocklist_run w : load_blocklist w = (fst (load_blocklist w), w).
Proof.
  rewrite <- (load_blocklist_pure w) at 3. destruct (load_blocklist w); reflexivity.
Qed.

(** On a store that holds a log, [log_action] appends its entry to the
    events and changes neither the clock nor the host. *)
Lemma log_action_appends ip action w :
  holds_log (blocklist_file w) ->
  exists w',
    log_action ip action w = (Ok tt, w') /\
    blocklist_file w' =
      Json (PList (stored_events (blocklist_file w) ++ [log_entry_at (clock w) ip action])) /\
    clock w' = clock w /\ host w' = host w /\ spawned w' = spawned w.
Proof.
  intros Hlog.
  unfold log_action, bind, datetime_now, write_actions_log, try_except.
  rewrite load_blocklist_run, load_blocklist_result.
  cbn [blocklist_file actions_log clock spawned host fst].
  destruct (blocklist_file w) as [| error | cls error | doc]; cbn.
  - eauto 6.
  - eauto 6.
  - eauto 6.
  - destruct doc; try contradiction. cbn. eauto 6.
Qed.

Lemma block_ip_shape ip : block_ip ip = apply_both "-A" "blocked" ip.
Proof. reflexivity. Qed.

Lemma unblock_ip_shape ip : unblock_ip ip = apply_both "-D" "unblocked" ip.
Proof. reflexivity. Qed.

Lemma apply_both_neither mode action ip w m_in w1 m_out w2 :
  execute_firewall_command (rule mode "INPUT" "-s" ip) w = (Ok (false, m_in), w1) ->
  execute_firewall_command (rule mode "OUTPUT" "-d" ip) w1 = (Ok (false, m_out), w2) ->
  apply_both mode action ip w = (Ok false, w2) /\ blocklist_file w2 = blocklist_file w.
Proof.
  intros Hin Hout. split.
  - unfold apply_both. rewrite (bind_run _ _ _ _ _ Hin), (bind_run _ _ _ _ _ Hout).
    reflexivity.
  - destruct (execute_returns (rule mode "INPUT" "-s" ip) w) as (?&?&?&E1&F1&_).
    destruct (execute_returns (rule mode "OUTPUT" "-d" ip) w1) as (?&?&?&E2&F2&_).
    rewrite Hin in E1. rewrite Hout in E2.
    injection E1 as _ _ <-. injection E2 as _ _ <-. congruence.
Qed.

Lemma apply_both_either mode action ip w b_in m_in w1 b_out m_out w2 :
  holds_log (blocklist_file w) ->
  execute_firewall_command (rule mode "INPUT" "-s" ip) w = (Ok (b_in, m_in), w1) ->
  execute_firewall_command (rule mode "OUTPUT" "-d" ip) w1 = (Ok (b_out, m_out), w2) ->
  b_in || b_out = true ->
  exists w',
    apply_both mode action ip w = (Ok (b_in && b_out), w') /\
    blocklist_file w' =
      Json (PList (stored_events (blocklist_file w) ++ [log_entry_at (clock w2) ip action])) /\
    clock w' = clock w2 /\ host w' = host w /\ spawned w' = spawned w2.
Proof.
  intros Hlog Hin Hout Hany.
  destruct (execute_returns (rule mode "INPUT" "-s" ip) w) as (?&?&?&E1&F1&G1).
  destruct (execute_returns (rule mode "OUTPUT" "-d" ip) w1) as (?&?&?&E2&F2&G2).
  rewrite Hin in E1. rewrite Hout in E2.
  injection E1 as _ _ <-. injection E2 as _ _ <-.
  assert (Hlog2 : holds_log (blocklist_file w2)) by (rewrite F2, F1; exact Hlog).
  destruct (log_action_appends ip action w2 Hlog2) as (w' & Hrun & Hfile & Hclock & Hhost & Hsp).
  exists w'. split; [|split; [|split; [|split]]].
  - unfold apply_both. rewrite (bind_run _ _ _ _ _ Hin), (bind_run _ _ _ _ _ Hout).
    rewrite Hany. rewrite (bind_run _ _ _ _ _ Hrun). reflexivity.
  - rewrite Hfile, F2, F1. reflexivity.
  - exact Hclock.
  - congruence.
  - exact Hsp.
Qed.

(** *** Block and unblock *)

(** C1. For every address and every pair of outcomes of the two
    enforcement commands, [block_ip] appends exactly one ['blocked'] event
    to the store when at least one of the two commands succeeded (none
    otherwise), and it returns [True] exactly when both succeeded; so with
    one success it records the event and returns [False]. *)
Theorem block_ip_records_on_either_returns_both ip w b_in m_in w1 b_out m_out w2 :
  holds_log (blocklist_file w) ->
  execute_firewall_command (rule "-A" "INPUT" "-s" ip) w = (Ok (b_in, m_in), w1) ->
  execute_firewall_command (rule "-A" "OUTPUT" "-d" ip) w1 = (Ok (b_out, m_out), w2) ->
  exists w',
    block_ip ip w = (Ok (b_in && b_out), w') /\
    stored_events (blocklist_file w') =
      stored_events (blocklist_file w) ++
        (if b_in || b_out then [log_entry_at (clock w2) ip "blocked"] else []).
Proof.
  intros Hlog Hin Hout. rewrite block_ip_shape.
  destruct (b_in || b_out) eqn:Hany.
  - destruct (apply_both_either "-A" "blocked" ip w _ _ _ _ _ _ Hlog Hin Hout Hany)
      as (w' & Hrun & Hfile & _).
    exists w'. split; [exact Hrun|]. rewrite Hfile. reflexivity.
  - apply orb_false_elim in Hany as [-> ->].
    destruct (apply_both_neither "-A" "blocked" ip w _ _ _ _ Hin Hout) as [Hrun Hfile].
    exists w2. split; [exact Hrun|]. rewrite Hfile, app_nil_r. reflexivity.
Qed.

(** C5. When both enforcement commands fail, [block_ip] leaves the store
    file exactly as it was and returns [False]. *)
Theorem block_ip_both_fail_store_unchanged ip w m_in w1 m_out w2 :
  execute_firewall_command (rule "-A" "INPUT" "-s" ip) w = (Ok (false, m_in), w1) ->
  execute_firewall_command (rule "-A" "OUTPUT" "-d" ip) w1 = (Ok (false, m_out), w2) ->
  block_ip ip w = (Ok false, w2) /\ blocklist_file w2 = blocklist_file w.
Proof.
  intros Hin Hout. rewrite block_ip_shape.
  exact (apply_both_neither "-A" "blocked" ip w _ _ _ _ Hin Hout).
Qed.

(** C4. When the store file is missing or holds text that is not JSON,
    [load_blocklist] returns the empty list without raising; when the
    file cannot be read as text, [load_blocklist] raises the read error to
    its caller. In each of these cases a following [block_ip] runs as
    usual, as [log_action] absorbs the error: it returns the conjunction
    of the two outcomes and, having an event to record, leaves a new store
    that holds exactly that event. *)
Theorem block_ip_on_store_without_document ip w b_in m_in w1 b_out m_out w2 :
  (forall doc, blocklist_file w <> Json doc) ->
  execute_firewall_command (rule "-A" "INPUT" "-s" ip) w = (Ok (b_in, m_in), w1) ->
  execute_firewall_command (rule "-A" "OUTPUT" "-d" ip) w1 = (Ok (b_out, m_out), w2) ->
  load_blocklist w =
    (match blocklist_file w with
     | Unreadable cls error => Raise (PyError cls error)
     | _ => Ok (PList [])
     end, w) /\
  exists w',
    block_ip ip w = (Ok (b_in && b_out), w') /\
    (b_in || b_out = true ->
     blocklist_file w' = Json (PList [log_entry_at (clock w2) ip "blocked"])).
Proof.
  intros Hfile Hin Hout.
  assert (Hlog : holds_log (blocklist_file w)).
  { destruct (blocklist_file w) as [| error | cls error | doc]; try exact I.
    destruct (Hfile doc eq_refl). }
  assert (Hev : stored_events (blocklist_file w) = []).
  { destruct (blocklist_file w) as [| error | cls error | doc]; try reflexivity.
    destruct (Hfile doc eq_refl). }
  split.
  - rewrite load_blocklist_run, load_blocklist_result.
    destruct (blocklist_file w) as [| error | cls error | doc]; try reflexivity.
    destruct (Hfile doc eq_refl).
  - rewrite block_ip_shape. destruct (b_in || b_out) eqn:Hany.
    + destruct (apply_both_either "-A" "blocked" ip w _ _ _ _ _ _ Hlog Hin Hout Hany)
        as (w' & Hrun & Hnew & _).
      exists w'. split; [exact Hrun|]. intros _. rewrite Hnew, Hev. reflexivity.
    + apply orb_false_elim in Hany as [-> ->].
      destruct (apply_both_neither "-A" "blocked" ip w _ _ _ _ Hin Hout) as [Hrun _].
      exists w2. split; [exact Hrun | discriminate].
Qed.

(** *** The store *)

(** C8. Writing back what [load_blocklist] returned leaves the event
    sequence of the store as it was: loading afterwards gives the same
    result as before, and a store that held a JSON document is not changed
    at all. *)
Theorem rewrite_loaded_is_noop w :
  fst (load_blocklist (snd (rewrite_loaded w))) = fst (load_blocklist w) /\
  (forall doc, blocklist_file w = Json doc -> snd (rewrite_loaded w) = w).
Proof.
  unfold rewrite_loaded, bind. rewrite load_blocklist_run, load_blocklist_result.
  destruct w as [f log t n h]. cbn [blocklist_file fst].
  destruct f as [| error | cls error | doc]; cbn; (split; [reflexivity|]);
    intros doc' [=]; subst; reflexivity.
Qed.

(** *** The wait of the executor *)


(** *** The sweep *)

Lemma py_ne_str_false action s : py_ne_str action s = false -> action = PStr s.
Proof.
  destruct action; simpl; try discriminate.
  intros Hneg. apply negb_false_iff, String.eqb_eq in Hneg. congruence.
Qed.

(** Every way one turn of the loop can end without raising. *)
Lemma check_entry_ok now entry updated_list w updated_list' w' :
  check_entry now entry updated_list w = (Ok updated_list', w') ->
  exists items action,
    entry = PDict items /\ dict_get items "action" = Some action /\
    ((py_ne_str action "blocked" = true /\
      updated_list' = updated_list ++ [entry] /\ w' = w)
     \/
     (action = PStr "blocked" /\
      exists s t,
        dict_get items "time" = Some (PStr s) /\ fromisoformat s = Some (Naive t) /\
        t + TTL <= DATETIME_MAX /\
        ((now <= t + TTL /\ updated_list' = updated_list ++ [entry] /\ w' = w)
         \/
         (t + TTL < now /\
          exists ip b w2,
            dict_get items "ip" = Some ip /\ unblock_ip ip w = (Ok b, w2) /\
            ((b = false /\ updated_list' = updated_list ++ [entry] /\ w' = w2)
             \/
             (b = true /\ updated_list' = updated_list /\ w' = announced ip w2)))))).
Proof.
  unfold check_entry. intros Hrun.
  destruct entry as [| | | | | |items]; try (cbn in Hrun; discriminate).
  exists items. cbn [py_getitem] in Hrun.
  destruct (dict_get items "action") as [action|] eqn:Haction; [|cbn in Hrun; discriminate].
  exists action. split; [reflexivity|]. split; [reflexivity|].
  rewrite (bind_run _ _ _ _ _ (eq_refl : ret action w = (Ok action, w))) in Hrun.
  destruct (py_ne_str action "blocked") eqn:Hne.
  { left. cbn in Hrun. injection Hrun as <- <-. auto. }
  right. split; [exact (py_ne_str_false _ _ Hne)|].
  destruct (dict_get items "time") as [time|] eqn:Htime; [|cbn in Hrun; discriminate].
  rewrite (bind_run _ _ _ _ _ (eq_refl : ret time w = (Ok time, w))) in Hrun.
  destruct time as [| | | |s| |]; try (cbn in Hrun; discriminate).
  cbn [datetime_fromisoformat] in Hrun.
  destruct (fromisoformat s) as [d|] eqn:Hparse; [|cbn in Hrun; discriminate].
  rewrite (bind_run _ _ _ _ _ (eq_refl : ret d w = (Ok d, w))) in Hrun.
  unfold datetime_add_hours in Hrun.
  destruct d as [t|t].
  2:{ destruct (DATETIME_MAX <? t + 1 * 3600 * MICROSECONDS); cbn in Hrun; discriminate. }
  exists s, t. split; [reflexivity|]. split; [exact Hparse|].
  change (1 * 3600 * MICROSECONDS) with TTL in Hrun.
  destruct (DATETIME_MAX <? t + TTL) eqn:Hmax; [cbn in Hrun; discriminate|].
  apply Z.ltb_ge in Hmax. split; [exact Hmax|].
  rewrite (bind_run _ _ _ _ _
             (eq_refl : ret (Naive (t + TTL)) w = (Ok (Naive (t + TTL)), w))) in Hrun.
  cbn [datetime_gt] in Hrun.
  rewrite (bind_run _ _ _ _ _
             (eq_refl : ret (t + TTL <? now) w = (Ok (t + TTL <? now), w))) in Hrun.
  destruct (t + TTL <? now) eqn:Hexp.
  2:{ left. apply Z.ltb_ge in Hexp. cbn in Hrun. injection Hrun as <- <-. auto. }
  right. apply Z.ltb_lt in Hexp. split; [exact Hexp|].
  destruct (dict_get items "ip") as [ip|] eqn:Hip; [|cbn in Hrun; discriminate].
  rewrite (bind_run _ _ _ _ _ (eq_refl : ret ip w = (Ok ip, w))) in Hrun.
  apply bind_ok in Hrun as (b & w2 & Hunblock & Hrun).
  exists ip, b, w2. split; [reflexivity|]. split; [exact Hunblock|].
  destruct b.
  - right. cbn in Hrun. injection Hrun as <- <-. auto.
  - left. cbn in Hrun. injection Hrun as <- <-. auto.
Qed.

(** A turn keeps the entry or drops it, and it keeps every entry whose
    action is not ['blocked']. *)
Lemma check_entry_step now entry updated_list w updated_list' w' :
  check_entry now entry updated_list w = (Ok updated_list', w') ->
  updated_list' = updated_list ++ [entry] \/
  (updated_list' = updated_list /\ is_other_row entry = false).
Proof.
  intros Hrun.
  destruct (check_entry_ok _ _ _ _ _ _ Hrun)
    as (items & action & -> & Haction &
        [(_ & -> & _) | (-> & s & t & _ & _ & _ &
           [(_ & -> & _) | (_ & ip & b & w2 & _ & _ &
              [(_ & -> & _) | (_ & -> & _)])])]); auto.
  right. split; [reflexivity|]. unfold is_other_row. rewrite Haction. reflexivity.
Qed.

(** The loop extends [updated_list] by a sublist of the entries it visits,
    in their order, which holds every entry whose action is not
    ['blocked']. *)
Lemma check_entries_ok now blocklist :
  forall updated_list w updated_list' w',
    check_entries now blocklist updated_list w = (Ok updated_list', w') ->
    exists kept,
      updated_list' = updated_list ++ kept /\
      kept `sublist_of` blocklist /\
      List.filter is_other_row kept = List.filter is_other_row blocklist.
Proof.
  induction blocklist as [|entry rest IH]; intros updated_list w updated_list' w' Hrun.
  - cbn in Hrun. injection Hrun as <- <-. exists []. rewrite app_nil_r.
    repeat split; constructor.
  - cbn [check_entries] in Hrun.
    apply bind_ok in Hrun as (mid & w1 & Hstep & Hrest).
    destruct (IH _ _ _ _ Hrest) as (kept & -> & Hsub & Hfilter).
    destruct (check_entry_step _ _ _ _ _ _ Hstep) as [-> | [-> Hother]].
    + exists (entry :: kept). rewrite <- app_assoc. split; [reflexivity|].
      split; [by apply sublist_skip|].
      cbn [List.filter]. rewrite Hfilter. reflexivity.
    + exists kept. split; [reflexivity|]. split; [by apply sublist_cons|].
      cbn [List.filter]. rewrite Hother. exact Hfilter.
Qed.

Lemma check_entries_app now l1 l2 :
  forall updated_list w,
    check_entries now (l1 ++ l2) updated_list w =
      bind (check_entries now l1 updated_list) (check_entries now l2) w.
Proof.
  induction l1 as [|entry rest IH]; intros updated_list w.
  - reflexivity.
  - cbn [app check_entries]. unfold bind.
    destruct (check_entry now entry updated_list w) as [[mid|e] w1]; [|reflexivity].
    rewrite IH. reflexivity.
Qed.

Lemma py_iter_run doc w : py_iter doc w = (fst (py_iter doc w), w).
Proof. destruct doc; reflexivity. Qed.

Lemma snapshot_run w : snapshot w = (fst (snapshot w), w).
Proof.
  unfold snapshot, bind. rewrite load_blocklist_run.
  destruct (fst (load_blocklist w)) as [doc|e]; [|reflexivity].
  rewrite py_iter_run. reflexivity.
Qed.

(** A sweep that completes has loaded a snapshot, run the loop over it
    and written what the loop returned. *)
Lemma check_expired_blocks_ok w w' :
  check_expired_blocks w = (Ok tt, w') ->
  exists blocklist kept w1,
    snapshot w = (Ok blocklist, w) /\
    check_entries (clock w) blocklist [] w = (Ok kept, w1) /\
    w' = World (Json (PList kept)) (actions_log w1) (clock w1) (spawned w1) (host w1).
Proof.
  unfold check_expired_blocks. intros Hrun.
  apply bind_ok in Hrun as (doc & w0 & Hload & Hrun).
  rewrite load_blocklist_run in Hload. injection Hload as Hdoc <-.
  apply bind_ok in Hrun as (now & w0 & Hnow & Hrun).
  injection Hnow as <- <-.
  apply bind_ok in Hrun as (blocklist & w0 & Hiter & Hrun).
  rewrite py_iter_run in Hiter. injection Hiter as Hiter <-.
  apply bind_ok in Hrun as (kept & w1 & Hloop & Hsave).
  injection Hsave as <-.
  exists blocklist, kept, w1. split; [|split; [exact Hloop | reflexivity]].
  unfold snapshot, bind. rewrite load_blocklist_run, Hdoc, py_iter_run, Hiter. reflexivity.
Qed.

Lemma sublist_In (l1 l2 : list pyval) x : l1 `sublist_of` l2 -> In x l1 -> In x l2.
Proof.
  intros Hsub Hin. apply list_elem_of_In. apply list_elem_of_In in Hin.
  exact (elem_of_sublist _ _ _ Hin Hsub).
Qed.

(** Every entry of a loop that completes is a ['blocked'] row or a row of
    another action. *)
Lemma check_entries_rows now blocklist :
  forall updated_list w updated_list' w',
    check_entries now blocklist updated_list w = (Ok updated_list', w') ->
    forall e, In e blocklist -> is_other_row e = negb (is_blocked_row e).
Proof.
  induction blocklist as [|entry rest IH]; intros updated_list w updated_list' w' Hrun e Hin.
  - destruct Hin.
  - cbn [check_entries] in Hrun.
    apply bind_ok in Hrun as (mid & w1 & Hstep & Hrest).
    destruct Hin as [<- | Hin]; [|exact (IH _ _ _ _ Hrest e Hin)].
    destruct (check_entry_ok _ _ _ _ _ _ Hstep) as (items & action & -> & Haction & _).
    unfold is_other_row, is_blocked_row. rewrite Haction, negb_involutive. reflexivity.
Qed.

(** What a completed sweep does with the entry [e] that stands between
    [pre] and [post] in its snapshot, when [e] is a ['blocked'] row whose
    time-to-live is over and the loop reaches it in world [w1] with
    [updated_list]: it calls [unblock_ip], drops [e] on [True] and keeps it
    on [False]. *)
Lemma sweep_at_expired_entry w w' pre e post items s t ip updated_list w1 :
  snapshot w = (Ok (pre ++ e :: post), w) ->
  e = PDict items ->
  dict_get items "action" = Some (PStr "blocked") ->
  dict_get items "time" = Some (PStr s) ->
  fromisoformat s = Some (Naive t) ->
  dict_get items "ip" = Some ip ->
  t + TTL < clock w ->
  check_entries (clock w) pre [] w = (Ok updated_list, w1) ->
  check_expired_blocks w = (Ok tt, w') ->
  exists b w2 kept_post,
    unblock_ip ip w1 = (Ok b, w2) /\
    blocklist_file w' =
      Json (PList (updated_list ++ (if b then [] else [e]) ++ kept_post)) /\
    updated_list `sublist_of` pre /\ kept_post `sublist_of` post.
Proof.
  intros Hsnap -> Haction Htime Hparse Hip Hexpired Hpre Hsweep.
  destruct (check_expired_blocks_ok _ _ Hsweep) as (blocklist & kept & w3 & Hsnap' & Hloop & ->).
  rewrite Hsnap in Hsnap'. injection Hsnap' as <-.
  rewrite check_entries_app, (bind_run _ _ _ _ _ Hpre) in Hloop.
  cbn [check_entries] in Hloop.
  apply bind_ok in Hloop as (mid & w4 & Hstep & Hpost).
  destruct (check_entries_ok _ _ _ _ _ _ Hpre) as (kept_pre & Hkept_pre & Hsub_pre & _).
  cbn [app] in Hkept_pre. subst kept_pre.
  destruct (check_entries_ok _ _ _ _ _ _ Hpost) as (kept_post & -> & Hsub_post & _).
  destruct (check_entry_ok _ _ _ _ _ _ Hstep)
    as (items' & action & [= <-] & Haction' & Hcases).
  rewrite Haction in Haction'. injection Haction' as <-.
  destruct Hcases as [(Hne & _) | (_ & s' & t' & Htime' & Hparse' & _ & Hcases)];
    [discriminate|].
  rewrite Htime in Htime'. injection Htime' as <-.
  rewrite Hparse in Hparse'. injection Hparse' as <-.
  destruct Hcases as [(Hnot & _) | (_ & ip' & b & w2 & Hip' & Hunblock & Hcases)]; [lia|].
  rewrite Hip in Hip'. injection Hip' as <-.
  exists b, w2, kept_post. split; [exact Hunblock|].
  cbn [blocklist_file].
  destruct Hcases as [(-> & -> & _) | (-> & -> & _)];
    (split; [|split; assumption]).
  - rewrite <- app_assoc. reflexivity.
  - reflexivity.
Qed.

(** C2. A ['blocked'] event whose time-to-live of one hour is over when
    the sweep runs, and whose reversal by the sweep succeeds, is absent
    from the store after the sweep: the store then holds what the sweep
    kept of the events before it followed by what it kept of the events
    after it, so the event is in the store only if it also stands
    elsewhere in the log. *)
Theorem sweep_prunes_expired_reversed_event
    w w' pre e post items s t ip updated_list w1 w2 :
  snapshot w = (Ok (pre ++ e :: post), w) ->
  e = PDict items ->
  dict_get items "action" = Some (PStr "blocked") ->
  dict_get items "time" = Some (PStr s) ->
  fromisoformat s = Some (Naive t) ->
  dict_get items "ip" = Some ip ->
  t + TTL < clock w ->
  check_entries (clock w) pre [] w = (Ok updated_list, w1) ->
  unblock_ip ip w1 = (Ok true, w2) ->
  check_expired_blocks w = (Ok tt, w') ->
  exists kept_post,
    blocklist_file w' = Json (PList (updated_list ++ kept_post)) /\
    updated_list `sublist_of` pre /\ kept_post `sublist_of` post /\
    (~ In e pre -> ~ In e post -> ~ In e (stored_events (blocklist_file w'))).
Proof.
  intros Hsnap He Haction Htime Hparse Hip Hexpired Hpre Hunblock Hsweep.
  destruct (sweep_at_expired_entry _ _ _ _ _ _ _ _ _ _ _
              Hsnap He Haction Htime Hparse Hip Hexpired Hpre Hsweep)
    as (b & w2' & kept_post & Hunblock' & Hfile & Hsub_pre & Hsub_post).
  rewrite Hunblock in Hunblock'. injection Hunblock' as <- <-.
  exists kept_post. cbn [app] in Hfile. split; [exact Hfile|].
  split; [exact Hsub_pre|]. split; [exact Hsub_post|].
  intros Hpre_out Hpost_out. rewrite Hfile. cbn [stored_events].
  intros Hin. apply in_app_or in Hin as [Hin | Hin].
  - exact (Hpre_out (sublist_In _ _ _ Hsub_pre Hin)).
  - exact (Hpost_out (sublist_In _ _ _ Hsub_post Hin)).
Qed.

(** C10. After a sweep that completes, the store is exactly what the loop
    kept of the snapshot loaded at its start, a sublist of that snapshot.
    Nothing else survives the final rewrite: an event that was not in the
    snapshot, such as one appended to the store while the sweep ran, is
    not in the store afterwards. *)
Theorem sweep_rewrites_store_from_snapshot w w' :
  check_expired_blocks w = (Ok tt, w') ->
  exists blocklist kept w1,
    snapshot w = (Ok blocklist, w) /\
    check_entries (clock w) blocklist [] w = (Ok kept, w1) /\
    blocklist_file w' = Json (PList kept) /\
    kept `sublist_of` blocklist /\
    (forall e, ~ In e blocklist -> ~ In e (stored_events (blocklist_file w'))).
Proof.
  intros Hsweep.
  destruct (check_expired_blocks_ok _ _ Hsweep) as (blocklist & kept & w1 & Hsnap & Hloop & ->).
  destruct (check_entries_ok _ _ _ _ _ _ Hloop) as (kept' & Hkept & Hsub & _).
  cbn [app] in Hkept. subst kept'.
  exists blocklist, kept, w1. cbn [blocklist_file stored_events].
  repeat split; try assumption.
  intros e Hout Hin. exact (Hout (sublist_In _ _ _ Hsub Hin)).
Qed.

(** A reversal that returns [True] has appended its ['unblocked'] event to
    the store, where it stays until the sweep rewrites the store. *)
Lemma unblock_ip_true_appends ip w w' :
  holds_log (blocklist_file w) ->
  unblock_ip ip w = (Ok true, w') ->
  blocklist_file w' =
    Json (PList (stored_events (blocklist_file w) ++ [log_entry_at (clock w') ip "unblocked"])).
Proof.
  intros Hlog Hrun. rewrite unblock_ip_shape in Hrun.
  destruct (execute_returns (rule "-D" "INPUT" "-s" ip) w) as (b_in & m_in & w1 & Hin & _).
  destruct (execute_returns (rule "-D" "OUTPUT" "-d" ip) w1) as (b_out & m_out & w2 & Hout & _).
  destruct (b_in || b_out) eqn:Hany.
  - destruct (apply_both_either "-D" "unblocked" ip w _ _ _ _ _ _ Hlog Hin Hout Hany)
      as (w'' & Hrun' & Hfile & Hclock & _).
    rewrite Hrun in Hrun'. injection Hrun' as _ <-.
    rewrite Hfile, Hclock. reflexivity.
  - apply orb_false_elim in Hany as [-> ->].
    destruct (apply_both_neither "-D" "unblocked" ip w _ _ _ _ Hin Hout) as [Hrun' _].
    rewrite Hrun in Hrun'. discriminate.
Qed.

(** *** Outside the log *)

(** When the store is a JSON document that is not an array,
    [load_blocklist] returns it as it is and [log_action] raises at
    [append], after the line of the audit log was written; the store is
    not touched. *)
Lemma log_action_raises_on_non_array ip action w doc :
  blocklist_file w = Json doc ->
  (forall items, doc <> PList items) ->
  exists e w',
    log_action ip action w = (Raise e, w') /\ blocklist_file w' = blocklist_file w.
Proof.
  intros Hfile Hdoc.
  unfold log_action, bind, datetime_now, write_actions_log, try_except.
  rewrite load_blocklist_run, load_blocklist_result.
  cbn [blocklist_file actions_log clock spawned host fst]. rewrite Hfile.
  destruct doc; cbn; eauto. destruct (Hdoc items eq_refl).
Qed.

(** When the store cannot be read, [load_blocklist] raises, and
    [log_action] reports the error and starts from the empty list. *)
Lemma load_blocklist_raises_on_unreadable w cls error :
  blocklist_file w = Unreadable cls error ->
  load_blocklist w = (Raise (PyError cls error), w).
Proof.
  intros Hfile. rewrite load_blocklist_run, load_blocklist_result, Hfile. reflexivity.
Qed.

(** *** Nothing but the final rewrite removes events *)

Lemma grows_refl w : grows w w.
Proof. exists []. rewrite app_nil_r. reflexivity. Qed.

Lemma grows_same_file w w' : blocklist_file w' = blocklist_file w -> grows w w'.
Proof. intros Hfile. exists []. rewrite Hfile, app_nil_r. reflexivity. Qed.

Lemma grows_trans w1 w2 w3 : grows w1 w2 -> grows w2 w3 -> grows w1 w3.
Proof.
  intros [x1 H1] [x2 H2]. exists (x1 ++ x2). rewrite H2, H1, app_assoc. reflexivity.
Qed.

Lemma bind_grows {A B} (c : M A) (k : A -> M B) w :
  grows w (snd (c w)) ->
  (forall a w1, grows w1 (snd (k a w1))) ->
  grows w (snd (bind c k w)).
Proof.
  unfold bind. intros Hc Hk. destruct (c w) as [[a|e] w1]; cbn [snd] in *.
  - exact (grows_trans _ _ _ Hc (Hk a w1)).
  - exact Hc.
Qed.

Lemma py_getitem_grows v k w : grows w (snd (py_getitem v k w)).
Proof.
  apply grows_same_file. destruct v; try reflexivity.
  cbn. destruct (dict_get items k); reflexivity.
Qed.

Lemma datetime_fromisoformat_grows v w : grows w (snd (datetime_fromisoformat v w)).
Proof.
  apply grows_same_file. destruct v; try reflexivity.
  cbn. destruct (fromisoformat s); reflexivity.
Qed.

Lemma datetime_add_hours_grows d hours w : grows w (snd (datetime_add_hours d hours w)).
Proof.
  apply grows_same_file. unfold datetime_add_hours.
  destruct (DATETIME_MAX <? _); reflexivity.
Qed.

Lemma datetime_gt_grows now d w : grows w (snd (datetime_gt now d w)).
Proof. apply grows_same_file. destruct d; reflexivity. Qed.

Lemma execute_grows cmd w : grows w (snd (execute_firewall_command cmd w)).
Proof.
  destruct (execute_returns cmd w) as (b & msg & w' & -> & Hfile & _).
  exact (grows_same_file _ _ Hfile).
Qed.

Lemma log_action_grows ip action w : grows w (snd (log_action ip action w)).
Proof.
  assert (Hlog : holds_log (blocklist_file w) -> grows w (snd (log_action ip action w))).
  { intros Hlog. destruct (log_action_appends ip action w Hlog) as (w' & -> & Hnew & _).
    exists [log_entry_at (clock w) ip action]. cbn [snd]. rewrite Hnew. reflexivity. }
  destruct (blocklist_file w) as [| error | cls error | doc] eqn:Hfile;
    try (apply Hlog; exact I).
  destruct doc; try (apply Hlog; exact I).
  all: destruct (log_action_raises_on_non_array ip action w _ Hfile) as (e & w' & -> & Hsame);
    [discriminate|]; apply grows_same_file; cbn [snd]; exact Hsame.
Qed.

Lemma apply_both_grows mode action ip w : grows w (snd (apply_both mode action ip w)).
Proof.
  unfold apply_both.
  apply bind_grows; [apply execute_grows|]. intros [success_in m_in] w1.
  apply bind_grows; [apply execute_grows|]. intros [success_out m_out] w2.
  apply bind_grows; [|intros; apply grows_refl].
  destruct (success_in || success_out); [apply log_action_grows | apply grows_refl].
Qed.

Lemma check_entry_grows now entry updated_list w :
  grows w (snd (check_entry now entry updated_list w)).
Proof.
  unfold check_entry.
  apply bind_grows; [apply py_getitem_grows|]. intros action w1.
  destruct (py_ne_str action "blocked"); [apply grows_refl|].
  apply bind_grows; [apply py_getitem_grows|]. intros time w2.
  apply bind_grows; [apply datetime_fromisoformat_grows|]. intros blocked_time w3.
  apply bind_grows; [apply datetime_add_hours_grows|]. intros unblock_time w4.
  apply bind_grows; [apply datetime_gt_grows|]. intros expired w5.
  destruct expired; [|apply grows_refl].
  apply bind_grows; [apply py_getitem_grows|]. intros ip w6.
  apply bind_grows; [rewrite unblock_ip_shape; apply apply_both_grows|]. intros unblocked w7.
  destruct unblocked; [|apply grows_refl].
  apply bind_grows; [apply py_getitem_grows|]. intros ip' w8.
  apply bind_grows; [by apply grows_same_file | intros; apply grows_refl].
Qed.

Lemma check_entries_grows now blocklist :
  forall updated_list w, grows w (snd (check_entries now blocklist updated_list w)).
Proof.
  induction blocklist as [|entry rest IH]; intros updated_list w.
  - apply grows_refl.
  - cbn [check_entries]. apply bind_grows; [apply check_entry_grows|].
    intros mid w1. apply IH.
Qed.

(** A sweep that raises has not reached its rewrite: the store still
    holds every event it held. *)
Lemma check_expired_blocks_raises w e w' :
  check_expired_blocks w = (Raise e, w') -> grows w w'.
Proof.
  unfold check_expired_blocks, bind, datetime_now.
  rewrite load_blocklist_run.
  destruct (fst (load_blocklist w)) as [doc|e0]; [|intros [= _ <-]; apply grows_refl].
  rewrite py_iter_run.
  destruct (fst (py_iter doc w)) as [entries|e0]; [|intros [= _ <-]; apply grows_refl].
  pose proof (check_entries_grows (clock w) entries [] w) as Hgrows.
  destruct (check_entries (clock w) entries [] w) as [[kept|e0] w1]; [discriminate|].
  intros [= _ <-]. exact Hgrows.
Qed.

(** A snapshot with a [dict] among its entries was loaded from a store
    that holds that list. *)
Lemma snapshot_with_dict w blocklist items :
  snapshot w = (Ok blocklist, w) ->
  In (PDict items) blocklist ->
  blocklist_file w = Json (PList blocklist).
Proof.
  unfold snapshot, bind. rewrite load_blocklist_run, load_blocklist_result.
  destruct (blocklist_file w) as [| error | cls error | doc]; cbn.
  - intros [= <-] [].
  - intros [= <-] [].
  - discriminate.
  - destruct doc; cbn; try discriminate.
    + intros [= <-] Hin. exfalso. clear -Hin.
      induction s as [|c s IH]; cbn in Hin; [destruct Hin|].
      destruct Hin as [Heq | Hin]; [discriminate | exact (IH Hin)].
    + intros [= <-]. reflexivity.
    + intros [= <-] Hin. exfalso. clear -Hin.
      induction items0 as [|kv kvs IH]; cbn in Hin; [destruct Hin|].
      destruct Hin as [Heq | Hin]; [discriminate | exact (IH Hin)].
Qed.

(** The snapshot of a store that holds events is the list of these. *)
Lemma snapshot_of_stored w blocklist e :
  snapshot w = (Ok blocklist, w) ->
  In e (stored_events (blocklist_file w)) ->
  blocklist = stored_events (blocklist_file w).
Proof.
  unfold snapshot, bind. rewrite load_blocklist_run, load_blocklist_result.
  destruct (blocklist_file w) as [| error | cls error | doc]; cbn; try (intros _ []).
  destruct doc; cbn; try (intros _ []). intros [= <-] _. reflexivity.
Qed.

Lemma snapshot_other_rows w blocklist :
  snapshot w = (Ok blocklist, w) ->
  List.filter is_other_row blocklist =
    List.filter is_other_row (stored_events (blocklist_file w)).
Proof.
  unfold snapshot, bind. rewrite load_blocklist_run, load_blocklist_result.
  destruct (blocklist_file w) as [| error | cls error | doc]; cbn;
    try (intros [= <-]; reflexivity); try discriminate.
  destruct doc; cbn; try discriminate.
  - intros [= <-]. induction s as [|c s IH]; [reflexivity | exact IH].
  - intros [= <-]. reflexivity.
  - intros [= <-]. induction items as [|kv kvs IH]; [reflexivity | exact IH].
Qed.

(** C3. A ['blocked'] event whose time-to-live is over when the sweep
    runs, and whose reversal by the sweep fails, is kept as it is: it is
    in the store after the sweep, however the sweep ends; and when the
    sweep completes it stands there between what the sweep kept of the
    events before it and of the events after it, and is part of the
    snapshot the next sweep loads. *)
Theorem sweep_retains_event_on_failed_reversal
    w r w' pre e post items s t ip updated_list w1 w2 :
  snapshot w = (Ok (pre ++ e :: post), w) ->
  e = PDict items ->
  dict_get items "action" = Some (PStr "blocked") ->
  dict_get items "time" = Some (PStr s) ->
  fromisoformat s = Some (Naive t) ->
  dict_get items "ip" = Some ip ->
  t + TTL < clock w ->
  check_entries (clock w) pre [] w = (Ok updated_list, w1) ->
  unblock_ip ip w1 = (Ok false, w2) ->
  check_expired_blocks w = (r, w') ->
  In e (stored_events (blocklist_file w')) /\
  (r = Ok tt ->
   exists kept_post,
     blocklist_file w' = Json (PList (updated_list ++ e :: kept_post)) /\
     updated_list `sublist_of` pre /\ kept_post `sublist_of` post /\
     snapshot w' = (Ok (updated_list ++ e :: kept_post), w')).
Proof.
  intros Hsnap He Haction Htime Hparse Hip Hexpired Hpre Hunblock Hsweep.
  destruct r as [[]|ex].
  - destruct (sweep_at_expired_entry _ _ _ _ _ _ _ _ _ _ _
                Hsnap He Haction Htime Hparse Hip Hexpired Hpre Hsweep)
      as (b & w2' & kept_post & Hunblock' & Hfile & Hsub_pre & Hsub_post).
    rewrite Hunblock in Hunblock'. injection Hunblock' as <- <-.
    cbn [app] in Hfile. split.
    + rewrite Hfile. cbn [stored_events]. apply in_or_app. right. left. reflexivity.
    + intros _. exists kept_post. split; [exact Hfile|].
      split; [exact Hsub_pre|]. split; [exact Hsub_post|].
      rewrite snapshot_run. f_equal.
      unfold snapshot, bind. rewrite load_blocklist_run, load_blocklist_result, Hfile.
      reflexivity.
  - split; [|discriminate].
    assert (Hin : In (PDict items) (pre ++ e :: post))
      by (subst e; apply in_or_app; right; left; reflexivity).
    pose proof (snapshot_with_dict _ _ _ Hsnap Hin) as Hfile.
    destruct (check_expired_blocks_raises _ _ _ Hsweep) as [extra Hgrows].
    rewrite Hgrows, Hfile. cbn [stored_events].
    apply in_or_app. left. apply in_or_app. right. left. reflexivity.
Qed.

(** C7. A sweep keeps every event whose action is not ['blocked'], in
    particular every ['unblocked'] event: an event of the store that is
    not a ['blocked'] row is in the store after the sweep, however the
    sweep ends; and when the sweep completes, the events of another action
    are the same as before, in number and order. *)
Theorem sweep_keeps_other_events w r w' :
  check_expired_blocks w = (r, w') ->
  (forall e, In e (stored_events (blocklist_file w)) -> is_blocked_row e = false ->
             In e (stored_events (blocklist_file w'))) /\
  (r = Ok tt ->
   List.filter is_other_row (stored_events (blocklist_file w')) =
     List.filter is_other_row (stored_events (blocklist_file w))).
Proof.
  intros Hsweep. destruct r as [[]|ex].
  - destruct (check_expired_blocks_ok _ _ Hsweep)
      as (blocklist & kept & w1 & Hsnap & Hloop & ->).
    destruct (check_entries_ok _ _ _ _ _ _ Hloop) as (kept' & Hkept & Hsub & Hfilter).
    cbn [app] in Hkept. subst kept'. cbn [blocklist_file stored_events].
    rewrite <- (snapshot_other_rows _ _ Hsnap). split; [|intros _; exact Hfilter].
    intros e Hin Hrow.
    rewrite <- (snapshot_of_stored _ _ _ Hsnap Hin) in Hin.
    pose proof (check_entries_rows _ _ _ _ _ _ Hloop e Hin) as Hother.
    rewrite Hrow in Hother.
    assert (Hf : In e (List.filter is_other_row blocklist)) by (apply filter_In; auto).
    rewrite <- Hfilter in Hf. apply filter_In in Hf. tauto.
  - split; [|discriminate].
    destruct (check_expired_blocks_raises _ _ _ Hsweep) as [extra Hgrows].
    intros e Hin _. rewrite Hgrows. apply in_or_app. left. exact Hin.
Qed.

End Properties.

(** ** The properties on worked worlds *)

Module Worked.

Import Examples.

#[local] Existing Instance IsoText.iso.

Lemma block_ip_partial_success_recorded :
  let w := world_with Missing [succeeds; refuses] in
  exists w',
    block_ip addr w = (Ok false, w') /\
    stored_events (blocklist_file w') =
      [entry "2024-05-01T12:00:00.040000" "198.51.100.7" "blocked"].
Proof.
  intros w.
  pose proof (block_ip_records_on_either_returns_both (H := IsoText.iso)
                addr w true _ _ false _ _ I eq_refl eq_refl) as Hw.
  exact Hw.
Defined.

Lemma block_ip_timed_out_records_nothing :
  let w := world_with log3 [Hangs; slow] in
  exists w2, block_ip addr w = (Ok false, w2) /\ blocklist_file w2 = blocklist_file w.
Proof.
  intros w. eexists.
  exact (block_ip_both_fail_store_unchanged (H := IsoText.iso) addr w _ _ _ _ eq_refl eq_refl).
Defined.

Lemma block_ip_creates_store_over_undecodable_file :
  let w := world_with MoreExamples.undecodable [succeeds; succeeds] in
  load_blocklist w =
    (Raise (PyError "UnicodeDecodeError"
              "'utf-8' codec can't decode byte 0xff in position 0: invalid start byte"), w) /\
  exists w',
    block_ip addr w = (Ok true, w') /\
    (true = true ->
     blocklist_file w' =
       Json (PList [entry "2024-05-01T12:00:00.040000" "198.51.100.7" "blocked"])).
Proof.
  intros w.
  pose proof (block_ip_on_store_without_document (H := IsoText.iso)
                addr w true _ _ true _ _
                ltac:(discriminate) eq_refl eq_refl) as Hw.
  exact Hw.
Defined.

(** The store file holds bytes that are not text, hence no valid JSON:
    [load_blocklist] does not return the empty list but raises, and the
    sweep that called it raises with it. *)
Lemma load_blocklist_fails_its_caller_on_undecodable_file :
  let w := world_with MoreExamples.undecodable [] in
  let e := PyError "UnicodeDecodeError"
             "'utf-8' codec can't decode byte 0xff in position 0: invalid start byte" in
  (forall doc, blocklist_file w <> Json doc) /\
  load_blocklist w = (Raise e, w) /\
  load_blocklist w <> (Ok (PList []), w) /\
  check_expired_blocks (H := IsoText.iso) w = (Raise e, w).
Proof.
  cbn zeta. split; [discriminate|]. split; [reflexivity|]. split; [discriminate|].
  reflexivity.
Qed.

Lemma rewrite_loaded_on_log3 :
  let w := world_with log3 [] in
  fst (load_blocklist (snd (rewrite_loaded w))) = fst (load_blocklist w) /\
  (forall doc, blocklist_file w = Json doc -> snd (rewrite_loaded w) = w).
Proof.
  intros w. exact (rewrite_loaded_is_noop w).
Defined.



Lemma sweep_prunes_old_block :
  let w := world_with log3 [succeeds; succeeds] in
  exists w' kept_post,
    check_expired_blocks w = (Ok tt, w') /\
    blocklist_file w' = Json (PList ([old_unblock] ++ kept_post)) /\
    [old_unblock] `sublist_of` [old_unblock] /\ kept_post `sublist_of` [fresh_block] /\
    (~ In old_block [old_unblock] -> ~ In old_block [fresh_block] ->
     ~ In old_block (stored_events (blocklist_file w'))).
Proof.
  intros w. eexists.
  assert (Hsweep : check_expired_blocks w = (Ok tt, snd (check_expired_blocks w)))
    by reflexivity.
  destruct (sweep_prunes_expired_reversed_event (H := IsoText.iso)
              w _ [old_unblock] old_block [fresh_block] _
              "2024-05-01T10:00:00" 63850154400000000 addr [old_unblock] w _
              eq_refl eq_refl eq_refl eq_refl eq_refl eq_refl eq_refl eq_refl eq_refl Hsweep)
    as (kept_post & Hw).
  exists kept_post. split; [exact Hsweep | exact Hw].
Defined.

Lemma sweep_retains_old_block :
  let w := world_with log3 [succeeds; refuses] in
  let w' := snd (check_expired_blocks w) in
  In old_block (stored_events (blocklist_file w')) /\
  (Ok tt = Ok tt ->
   exists kept_post,
     blocklist_file w' = Json (PList ([old_unblock] ++ old_block :: kept_post)) /\
     [old_unblock] `sublist_of` [old_unblock] /\ kept_post `sublist_of` [fresh_block] /\
     snapshot w' = (Ok ([old_unblock] ++ old_block :: kept_post), w')).
Proof.
  intros w w'.
  exact (sweep_retains_event_on_failed_reversal (H := IsoText.iso)
           w (Ok tt) w' [old_unblock] old_block [fresh_block] _
           "2024-05-01T10:00:00" 63850154400000000 addr [old_unblock] w _
           eq_refl eq_refl eq_refl eq_refl eq_refl eq_refl eq_refl eq_refl eq_refl eq_refl).
Defined.

Lemma sweep_keeps_old_unblock :
  let w := world_with log3 [succeeds; succeeds] in
  let w' := snd (check_expired_blocks w) in
  (forall e, In e (stored_events (blocklist_file w)) -> is_blocked_row e = false ->
             In e (stored_events (blocklist_file w'))) /\
  (Ok tt = Ok tt ->
   List.filter is_other_row (stored_events (blocklist_file w')) =
     List.filter is_other_row (stored_events (blocklist_file w))).
Proof.
  intros w w'.
  exact (sweep_keeps_other_events (H := IsoText.iso) w (Ok tt) w' eq_refl).
Defined.

Lemma sweep_rewrites_log3 :
  let w := world_with log3 [succeeds; succeeds] in
  let w' := snd (check_expired_blocks w) in
  exists blocklist kept w1,
    snapshot w = (Ok blocklist, w) /\
    check_entries (clock w) blocklist [] w = (Ok kept, w1) /\
    blocklist_file w' = Json (PList kept) /\
    kept `sublist_of` blocklist /\
    (forall e, ~ In e blocklist -> ~ In e (stored_events (blocklist_file w'))).
Proof.
  intros w w'.
  exact (sweep_rewrites_store_from_snapshot (H := IsoText.iso) w w' eq_refl).
Defined.

(** The ['unblocked'] event that the reversal of [old_block] appends is in
    the store when the loop ends and is gone once the sweep has written
    its list. *)
Example sweep_overwrites_its_own_unblocked_event :
  let w := world_with log3 [succeeds; succeeds] in
  let appended := entry "2024-05-01T12:00:00.040000" "198.51.100.7" "unblocked" in
  blocklist_file (snd (check_entries (clock w) [old_unblock; old_block; fresh_block] [] w)) =
    Json (PList [old_unblock; old_block; fresh_block; appended]) /\
  blocklist_file (snd (check_expired_blocks w)) = Json (PList [old_unblock; fresh_block]).
Proof. split; vm_compute; reflexivity. Qed.

(** Each of the four pairs of outcomes of the two commands occurs. *)
Lemma outcome_pairs_occur (b_in b_out : bool) :
  exists w m_in w1 m_out w2,
    execute_firewall_command (rule "-A" "INPUT" "-s" addr) w = (Ok (b_in, m_in), w1) /\
    execute_firewall_command (rule "-A" "OUTPUT" "-d" addr) w1 = (Ok (b_out, m_out), w2).
Proof.
  exists (world_with Missing [if b_in then succeeds else refuses;
                              if b_out then succeeds else Hangs]).
  destruct b_in, b_out; do 4 eexists;
    (split; [vm_compute; reflexivity | vm_compute; reflexivity]).
Qed.

(** A sweep that meets an entry without ['time'] raises [KeyError] and
    rewrites nothing: the store keeps its three events, followed by the
    ['unblocked'] event of the reversal done before the error; the loop of
    [run] reports the error and goes on. *)
Example aborted_sweep_prunes_nothing :
  let w := world_with log_broken [succeeds; succeeds] in
  fst (check_expired_blocks w) = Raise (PyError "KeyError" "'time'") /\
  blocklist_file (snd (check_expired_blocks w)) =
    Json (PList [old_unblock; old_block; no_time_block;
                 entry "2024-05-01T12:00:00.040000" "198.51.100.7" "unblocked"]) /\
  fst (run 2 w) = Ok tt /\
  clock (snd (run 2 w)) = T0 + 80000 + 2 * 60 * MICROSECONDS.
Proof. repeat split; vm_compute; reflexivity. Qed.

End Worked.

(** ** Further properties *)

Section Further.

Context `{DateTime} `{Resolver}.

(** *** The executor *)

(** X1. [execute_firewall_command] never raises and never touches the
    store. It returns [True] only for a command line of [str] arguments
    whose process ended within the 10 seconds with status zero, and then
    with an empty text and nothing logged; when it returns [False] it has
    logged exactly one error record, carrying the text it returns. *)
Theorem execute_outcome cmd w :
  exists b msg w',
    execute_firewall_command cmd w = (Ok (b, msg), w') /\
    blocklist_file w' = blocklist_file w /\
    (b = true ->
     msg = EmptyString /\ actions_log w' = actions_log w /\
     exists argv elapsed stderr,
       argv_of (PStr "sudo" :: cmd) = Ok argv /\
       host w (spawned w) argv = Exits elapsed 0 stderr /\
       elapsed <= 10 * MICROSECONDS) /\
    (b = false -> actions_log w' = actions_log w ++ [LogRecord "ERROR" msg]).
Proof.
  unfold execute_firewall_command, try_except, subprocess_run.
  destruct (argv_of (PStr "sudo" :: cmd)) as [argv|e] eqn:Hargv.
  - unfold bind at 1. unfold bind at 1. unfold launch at 1.
    cbn [blocklist_file actions_log clock spawned host].
    destruct (host w (spawned w) argv) as [cls msg| elapsed rc stderr |] eqn:Hp.
    + cbn. do 3 eexists. split; [reflexivity|]. cbn.
      split; [reflexivity|]. split; [discriminate | reflexivity].
    + destruct (10 * MICROSECONDS <? elapsed) eqn:Hlt.
      { cbn. do 3 eexists. split; [reflexivity|]. cbn.
        split; [reflexivity|]. split; [discriminate | reflexivity]. }
      apply Z.ltb_ge in Hlt.
      destruct (rc =? 0) eqn:Hrc.
      { apply Z.eqb_eq in Hrc. subst rc. cbn. do 3 eexists. split; [reflexivity|]. cbn.
        split; [reflexivity|]. split; [|discriminate].
        intros _. split; [reflexivity|]. split; [reflexivity|]. eauto 6. }
      cbn - [py_join String.append]. unfold py_join.
      simpl in Hargv. destruct (argv_of cmd) as [l|] eqn:Hcmd; [|discriminate].
      rewrite (argv_of_join _ _ Hcmd). cbn. do 3 eexists. split; [reflexivity|]. cbn.
      split; [reflexivity|]. split; [discriminate | reflexivity].
    + cbn. do 3 eexists. split; [reflexivity|]. cbn.
      split; [reflexivity|]. split; [discriminate | reflexivity].
  - destruct (argv_of_raises _ _ Hargv) as [msg ->]. cbn.
    do 3 eexists. split; [reflexivity|]. cbn.
    split; [reflexivity|]. split; [discriminate | reflexivity].
Qed.

(** *** Recording *)

(** Everything [log_action] does, by the state of the store. *)
Lemma log_action_run ip action w :
  let e := log_entry_at (clock w) ip action in
  let after f log := World f log (clock w) (spawned w) (host w) in
  log_action ip action w =
    match blocklist_file w with
    | Json (PList items) =>
        (Ok tt, after (Json (PList (items ++ [e]))) (actions_log w ++ [JsonLine e]))
    | Missing | Garbage _ =>
        (Ok tt, after (Json (PList [e])) (actions_log w ++ [JsonLine e]))
    | Unreadable cls error =>
        (Ok tt,
         after (Json (PList [e]))
               ((actions_log w ++ [JsonLine e])
                  ++ [LogRecord "ERROR" ("Error loading blocklist: " +:+ error)]))
    | Json doc =>
        (Raise (PyError "AttributeError"
                  ("'" +:+ py_type_name doc +:+ "' object has no attribute 'append'")),
         after (Json doc) (actions_log w ++ [JsonLine e]))
    end.
Proof.
  intros e after. subst e after.
  unfold log_action, bind, datetime_now, write_actions_log, try_except.
  rewrite load_blocklist_run, load_blocklist_result.
  cbn [blocklist_file actions_log clock spawned host fst].
  destruct (blocklist_file w) as [| error | cls error | doc]; try reflexivity.
  destruct doc; reflexivity.
Qed.

(** X2. [log_action] writes its entry to the audit log first and
    whatever the store is like, also when it then raises; it changes
    neither the clock nor the count of launched processes; and when it
    returns, the last event of the store is the entry of the audit
    line. *)
Theorem log_action_audits_first ip action w :
  let e := log_entry_at (clock w) ip action in
  let w' := snd (log_action ip action w) in
  (exists more, actions_log w' = actions_log w ++ JsonLine e :: more) /\
  clock w' = clock w /\ spawned w' = spawned w /\
  (fst (log_action ip action w) = Ok tt ->
   exists before, blocklist_file w' = Json (PList (before ++ [e]))).
Proof.
  intros e w'. subst e w'. rewrite log_action_run.
  destruct (blocklist_file w) as [| error | cls error | doc]; cbn.
  - split; [exists []; reflexivity|]. repeat split. intros _. exists []. reflexivity.
  - split; [exists []; reflexivity|]. repeat split. intros _. exists []. reflexivity.
  - split; [eexists; rewrite <- app_assoc; reflexivity|]. repeat split.
    intros _. exists []. reflexivity.
  - destruct doc; cbn; (split; [exists []; reflexivity|]); repeat split;
      try discriminate.
    intros _. exists items. reflexivity.
Qed.

(** X3. When the store file cannot be read, [log_action] does not fail:
    it reports the error in the audit log and writes a new store that
    holds its entry alone. When the file is missing or is not JSON it does
    the same without a report. What the file held is not kept. *)
Theorem log_action_replaces_unusable_store ip action w :
  (forall doc, blocklist_file w <> Json doc) ->
  let e := log_entry_at (clock w) ip action in
  exists w',
    log_action ip action w = (Ok tt, w') /\
    blocklist_file w' = Json (PList [e]) /\
    actions_log w' =
      actions_log w ++ JsonLine e ::
        match blocklist_file w with
        | Unreadable _ error => [LogRecord "ERROR" ("Error loading blocklist: " +:+ error)]
        | _ => []
        end.
Proof.
  intros Hfile e. subst e. rewrite log_action_run.
  destruct (blocklist_file w) as [| error | cls error | doc]; cbn.
  - eexists. split; [reflexivity|]. split; reflexivity.
  - eexists. split; [reflexivity|]. split; reflexivity.
  - eexists. split; [reflexivity|]. cbn. split; [reflexivity|].
    rewrite <- app_assoc. reflexivity.
  - destruct (Hfile doc eq_refl).
Qed.

(** *** Block and unblock *)

(** X4. [unblock_ip] mirrors [block_ip]: on a store that holds a log it
    appends exactly one ['unblocked'] event when at least one of its two
    commands succeeded and none otherwise, and it returns [True] exactly
    when both succeeded. *)
Theorem unblock_ip_records_on_either_returns_both ip w b_in m_in w1 b_out m_out w2 :
  holds_log (blocklist_file w) ->
  execute_firewall_command (rule "-D" "INPUT" "-s" ip) w = (Ok (b_in, m_in), w1) ->
  execute_firewall_command (rule "-D" "OUTPUT" "-d" ip) w1 = (Ok (b_out, m_out), w2) ->
  exists w',
    unblock_ip ip w = (Ok (b_in && b_out), w') /\
    stored_events (blocklist_file w') =
      stored_events (blocklist_file w) ++
        (if b_in || b_out then [log_entry_at (clock w2) ip "unblocked"] else []).
Proof.
  intros Hlog Hin Hout. rewrite unblock_ip_shape.
  destruct (b_in || b_out) eqn:Hany.
  - destruct (apply_both_either "-D" "unblocked" ip w _ _ _ _ _ _ Hlog Hin Hout Hany)
      as (w' & Hrun & Hfile & _).
    exists w'. split; [exact Hrun|]. rewrite Hfile. reflexivity.
  - apply orb_false_elim in Hany as [-> ->].
    destruct (apply_both_neither "-D" "unblocked" ip w _ _ _ _ Hin Hout) as [Hrun Hfile].
    exists w2. split; [exact Hrun|]. rewrite Hfile, app_nil_r. reflexivity.
Qed.

(** X5. When the store is a JSON document that is not an array and at
    least one of the two commands succeeded, [block_ip] raises
    [AttributeError] instead of returning: the rules that succeeded are in
    place and the audit log has the ['blocked'] line, but the store is as
    it was. *)
Theorem block_ip_raises_on_non_array_store ip w doc b_in m_in w1 b_out m_out w2 :
  blocklist_file w = Json doc ->
  (forall items, doc <> PList items) ->
  execute_firewall_command (rule "-A" "INPUT" "-s" ip) w = (Ok (b_in, m_in), w1) ->
  execute_firewall_command (rule "-A" "OUTPUT" "-d" ip) w1 = (Ok (b_out, m_out), w2) ->
  b_in || b_out = true ->
  exists w',
    block_ip ip w =
      (Raise (PyError "AttributeError"
                ("'" +:+ py_type_name doc +:+ "' object has no attribute 'append'")), w') /\
    blocklist_file w' = Json doc /\
    actions_log w' = actions_log w2 ++ [JsonLine (log_entry_at (clock w2) ip "blocked")].
Proof.
  intros Hfile Hdoc Hin Hout Hany.
  destruct (execute_returns (rule "-A" "INPUT" "-s" ip) w) as (?&?&?&E1&F1&_).
  destruct (execute_returns (rule "-A" "OUTPUT" "-d" ip) w1) as (?&?&?&E2&F2&_).
  rewrite Hin in E1. rewrite Hout in E2.
  injection E1 as _ _ <-. injection E2 as _ _ <-.
  assert (Hfile2 : blocklist_file w2 = Json doc) by congruence.
  rewrite block_ip_shape. unfold apply_both.
  rewrite (bind_run _ _ _ _ _ Hin), (bind_run _ _ _ _ _ Hout), Hany.
  pose proof (log_action_run ip "blocked" w2) as Hrun. cbn zeta in Hrun.
  rewrite Hfile2 in Hrun.
  destruct doc; try (eexists; rewrite (bind_raise _ _ _ _ _ Hrun);
                     split; [reflexivity | split; reflexivity]).
  destruct (Hdoc items eq_refl).
Qed.

Lemma execute_counts cmd w :
  spawned (snd (execute_firewall_command cmd w)) = spawned w \/
  spawned (snd (execute_firewall_command cmd w)) = S (spawned w).
Proof.
  unfold execute_firewall_command, try_except, subprocess_run.
  destruct (argv_of (PStr "sudo" :: cmd)) as [argv|e] eqn:Hargv.
  - right. unfold bind at 1. unfold bind at 1. unfold launch at 1.
    cbn [blocklist_file actions_log clock spawned host].
    destruct (host w (spawned w) argv) as [cls msg| elapsed rc stderr |] eqn:Hp.
    + reflexivity.
    + destruct (10 * MICROSECONDS <? elapsed) eqn:Hlt; [reflexivity|].
      destruct (rc =? 0); [reflexivity|].
      cbn - [py_join String.append]. unfold py_join.
      simpl in Hargv. destruct (argv_of cmd) as [l|] eqn:Hcmd; [|discriminate].
      rewrite (argv_of_join _ _ Hcmd). reflexivity.
    + reflexivity.
  - left. destruct (argv_of_raises _ _ Hargv) as [msg ->]. reflexivity.
Qed.

Lemma log_action_keeps_counts ip action w :
  clock (snd (log_action ip action w)) = clock w /\
  spawned (snd (log_action ip action w)) = spawned w.
Proof.
  rewrite log_action_run.
  destruct (blocklist_file w) as [| error | cls error | doc]; try (split; reflexivity).
  destruct doc; split; reflexivity.
Qed.

Lemma apply_both_counts mode action ip w :
  (spawned w <= spawned (snd (apply_both mode action ip w)) <= spawned w + 2)%nat.
Proof.
  assert (Hcount : exists n, spawned (snd (apply_both mode action ip w)) = n /\
                             (spawned w <= n <= spawned w + 2)%nat).
  { unfold apply_both.
    pose proof (execute_counts (rule mode "INPUT" "-s" ip) w) as S1.
    destruct (execute_returns (rule mode "INPUT" "-s" ip) w)
      as (b_in & m_in & w1 & Hin & _).
    rewrite Hin in S1. cbn [snd] in S1. rewrite (bind_run _ _ _ _ _ Hin).
    pose proof (execute_counts (rule mode "OUTPUT" "-d" ip) w1) as S2.
    destruct (execute_returns (rule mode "OUTPUT" "-d" ip) w1)
      as (b_out & m_out & w2 & Hout & _).
    rewrite Hout in S2. cbn [snd] in S2. rewrite (bind_run _ _ _ _ _ Hout).
    unfold bind. destruct (b_in || b_out).
    - destruct (log_action_keeps_counts ip action w2) as (_ & Hs).
      destruct (log_action ip action w2) as [[[]|e] w3]; cbn [snd ret] in *;
        eexists; (split; [reflexivity | lia]).
    - cbn. eexists. split; [reflexivity | lia]. }
  destruct Hcount as (n & -> & Hn). exact Hn.
Qed.




Lemma execute_non_str mode chain flag ip w :
  (forall s, ip <> PStr s) ->
  let msg := "Unexpected error: expected str, bytes or os.PathLike object, not "
               +:+ py_type_name ip in
  execute_firewall_command (rule mode chain flag ip) w =
    (Ok (false, msg),
     World (blocklist_file w) (actions_log w ++ [LogRecord "ERROR" msg])
           (clock w) (spawned w) (host w)).
Proof.
  intros Hip. destruct ip; try reflexivity. destruct (Hip s eq_refl).
Qed.

(** X7. An address that is not a [str] (a number read from the store,
    say) never reaches the firewall: [block_ip] and [unblock_ip] launch no
    process, log the two type errors, record no event and return
    [False]. *)
Theorem non_str_address_never_runs ip w :
  (forall s, ip <> PStr s) ->
  let msg := "Unexpected error: expected str, bytes or os.PathLike object, not "
               +:+ py_type_name ip in
  let w' := World (blocklist_file w)
                  ((actions_log w ++ [LogRecord "ERROR" msg]) ++ [LogRecord "ERROR" msg])
                  (clock w) (spawned w) (host w) in
  block_ip ip w = (Ok false, w') /\ unblock_ip ip w = (Ok false, w').
Proof.
  intros Hip msg w'. subst msg w'.
  rewrite block_ip_shape, unblock_ip_shape. unfold apply_both.
  split.
  - rewrite (bind_run _ _ _ _ _ (execute_non_str "-A" "INPUT" "-s" ip w Hip)).
    rewrite (bind_run _ _ _ _ _ (execute_non_str "-A" "OUTPUT" "-d" ip _ Hip)).
    reflexivity.
  - rewrite (bind_run _ _ _ _ _ (execute_non_str "-D" "INPUT" "-s" ip w Hip)).
    rewrite (bind_run _ _ _ _ _ (execute_non_str "-D" "OUTPUT" "-d" ip _ Hip)).
    reflexivity.
Qed.

(** *** The sweep *)

Lemma check_entry_not_due now entry updated_list w :
  not_due now entry = true ->
  check_entry now entry updated_list w = (Ok (updated_list ++ [entry]), w).
Proof.
  unfold not_due, check_entry. intros Hdue.
  destruct entry as [| | | | | |items]; try discriminate.
  cbn [py_getitem].
  destruct (dict_get items "action") as [action|]; [|discriminate].
  rewrite (bind_run _ _ _ _ _ (eq_refl : ret action w = (Ok action, w))).
  destruct (py_ne_str action "blocked"); [reflexivity|].
  destruct (dict_get items "time") as [[| | | |s| |]|]; try discriminate.
  rewrite (bind_run _ _ _ _ _ (eq_refl : ret (PStr s) w = (Ok (PStr s), w))).
  cbn [datetime_fromisoformat].
  destruct (fromisoformat s) as [[t|t]|]; try discriminate.
  rewrite (bind_run _ _ _ _ _ (eq_refl : ret (Naive t) w = (Ok (Naive t), w))).
  apply andb_true_iff in Hdue as [Hmax Hnow].
  apply Z.leb_le in Hmax. apply Z.leb_le in Hnow.
  unfold datetime_add_hours. change (1 * 3600 * MICROSECONDS) with TTL.
  apply Z.ltb_ge in Hmax. rewrite Hmax.
  rewrite (bind_run _ _ _ _ _
             (eq_refl : ret (Naive (t + TTL)) w = (Ok (Naive (t + TTL)), w))).
  cbn [datetime_gt].
  rewrite (bind_run _ _ _ _ _
             (eq_refl : ret (t + TTL <? now) w = (Ok (t + TTL <? now), w))).
  apply Z.ltb_ge in Hnow. rewrite Hnow. reflexivity.
Qed.

Lemma check_entries_not_due now blocklist :
  forall updated_list w,
    (forall e, In e blocklist -> not_due now e = true) ->
    check_entries now blocklist updated_list w = (Ok (updated_list ++ blocklist), w).
Proof.
  induction blocklist as [|entry rest IH]; intros updated_list w Hall.
  - cbn. rewrite app_nil_r. reflexivity.
  - cbn [check_entries].
    rewrite (bind_run _ _ _ _ _
               (check_entry_not_due now entry updated_list w (Hall entry (or_introl eq_refl)))).
    rewrite IH by (intros e He; apply Hall; right; exact He).
    rewrite <- app_assoc. reflexivity.
Qed.

(** X8. A sweep over a log in which no ['blocked'] entry is older than
    one hour changes nothing at all: it keeps every entry, launches no
    process and logs nothing. An entry blocked exactly one hour ago is not
    yet due. *)
Theorem sweep_without_due_entries_is_noop w blocklist :
  blocklist_file w = Json (PList blocklist) ->
  (forall e, In e blocklist -> not_due (clock w) e = true) ->
  check_expired_blocks w = (Ok tt, w).
Proof.
  intros Hfile Hall. unfold check_expired_blocks.
  assert (Hload : load_blocklist w = (Ok (PList blocklist), w))
    by (rewrite load_blocklist_run, load_blocklist_result, Hfile; reflexivity).
  rewrite (bind_run _ _ _ _ _ Hload).
  rewrite (bind_run _ _ _ _ _ (eq_refl : datetime_now w = (Ok (clock w), w))).
  rewrite (bind_run _ _ _ _ _
             (eq_refl : py_iter (PList blocklist) w = (Ok blocklist, w))).
  rewrite (bind_run _ _ _ _ _ (check_entries_not_due _ _ [] w Hall)).
  cbn. destruct w as [f log t n h]. cbn in *. rewrite Hfile. reflexivity.
Qed.

(** X9. A sweep over a store file that is missing or is not JSON
    completes and leaves a store that holds the empty array, whatever the
    file held; over a file that cannot be read it raises the read error
    and changes nothing. *)
Theorem sweep_over_unusable_store w :
  (forall doc, blocklist_file w <> Json doc) ->
  check_expired_blocks w =
    match blocklist_file w with
    | Unreadable cls error => (Raise (PyError cls error), w)
    | _ => (Ok tt, World (Json (PList [])) (actions_log w) (clock w) (spawned w) (host w))
    end.
Proof.
  intros Hfile. unfold check_expired_blocks, bind.
  rewrite load_blocklist_run, load_blocklist_result.
  destruct (blocklist_file w) as [| error | cls error | doc]; try reflexivity.
  destruct (Hfile doc eq_refl).
Qed.

Lemma check_entry_ill_formed now entry updated_list w :
  ill_formed entry = true ->
  exists e, check_entry now entry updated_list w = (Raise e, w).
Proof.
  unfold ill_formed, check_entry. intros Hill.
  destruct entry as [| | | | | |items]; try (cbn; eauto; fail).
  cbn [py_getitem].
  destruct (dict_get items "action") as [action|]; [|cbn; eauto].
  rewrite (bind_run _ _ _ _ _ (eq_refl : ret action w = (Ok action, w))).
  destruct (py_ne_str action "blocked"); [discriminate|].
  destruct (dict_get items "time") as [time|]; [|cbn; eauto].
  rewrite (bind_run _ _ _ _ _ (eq_refl : ret time w = (Ok time, w))).
  destruct time as [| | | |s| |]; try (cbn; eauto; fail).
  cbn [datetime_fromisoformat].
  destruct (fromisoformat s) as [[t|t]|]; [| |cbn; eauto].
  - rewrite (bind_run _ _ _ _ _ (eq_refl : ret (Naive t) w = (Ok (Naive t), w))).
    unfold datetime_add_hours. change (1 * 3600 * MICROSECONDS) with TTL.
    rewrite Hill. cbn. eauto.
  - rewrite (bind_run _ _ _ _ _ (eq_refl : ret (Aware t) w = (Ok (Aware t), w))).
    unfold datetime_add_hours.
    destruct (DATETIME_MAX <? t + 1 * 3600 * MICROSECONDS); cbn; eauto.
Qed.

Lemma check_entries_ill_formed now entry blocklist :
  In entry blocklist ->
  ill_formed entry = true ->
  forall updated_list w,
  exists e w', check_entries now blocklist updated_list w = (Raise e, w').
Proof.
  intros Hin Hill.
  induction blocklist as [|head rest IH]; intros updated_list w; [destruct Hin|].
  cbn [check_entries].
  destruct (check_entry now head updated_list w) as [[mid|e] w1] eqn:Hstep.
  - destruct Hin as [-> | Hin].
    + destruct (check_entry_ill_formed now entry updated_list w Hill) as [e He].
      rewrite He in Hstep. discriminate.
    + rewrite (bind_run _ _ _ _ _ Hstep). exact (IH Hin mid w1).
  - rewrite (bind_raise _ _ _ _ _ Hstep). eauto.
Qed.

Lemma stored_in_list w e :
  In e (stored_events (blocklist_file w)) ->
  blocklist_file w = Json (PList (stored_events (blocklist_file w))).
Proof.
  destruct (blocklist_file w) as [| error | cls error | doc]; try (intros []).
  destruct doc; try (intros []). reflexivity.
Qed.

Lemma sweep_raises_on_ill_formed w entry :
  In entry (stored_events (blocklist_file w)) ->
  ill_formed entry = true ->
  exists e w', check_expired_blocks w = (Raise e, w').
Proof.
  intros Hin Hill. pose proof (stored_in_list _ _ Hin) as Hfile.
  unfold check_expired_blocks.
  assert (Hload : load_blocklist w = (Ok (PList (stored_events (blocklist_file w))), w))
    by (rewrite load_blocklist_run, load_blocklist_result, Hfile; reflexivity).
  rewrite (bind_run _ _ _ _ _ Hload).
  rewrite (bind_run _ _ _ _ _ (eq_refl : datetime_now w = (Ok (clock w), w))).
  rewrite (bind_run _ _ _ _ _
             (eq_refl : py_iter (PList (stored_events (blocklist_file w))) w = (Ok _, w))).
  destruct (check_entries_ill_formed (clock w) entry _ Hin Hill [] w) as (e & w' & Hloop).
  rewrite (bind_raise _ _ _ _ _ Hloop). eauto.
Qed.

Lemma run_once_after w :
  fst (run_once w) = Ok tt /\
  blocklist_file (snd (run_once w)) = blocklist_file (snd (check_expired_blocks w)).
Proof.
  unfold run_once, bind, try_except.
  destruct (check_expired_blocks w) as [[[]|e] w1]; split; reflexivity.
Qed.

(** X10. One ill-formed entry in the store stops all pruning: every
    sweep raises at it before it rewrites the store, so after any number
    of turns of [run] the store still holds every event it held, in
    order. *)
Theorem ill_formed_entry_stops_pruning w entry :
  In entry (stored_events (blocklist_file w)) ->
  ill_formed entry = true ->
  (exists e w', check_expired_blocks w = (Raise e, w')) /\
  forall turns, grows w (snd (run turns w)).
Proof.
  intros Hin Hill. split; [exact (sweep_raises_on_ill_formed w entry Hin Hill)|].
  intros turns. revert w Hin.
  induction turns as [|n IH]; intros w Hin; [apply grows_refl|].
  cbn [run]. unfold bind at 1.
  destruct (run_once_after w) as [Hok Hfile].
  destruct (run_once w) as [r w1] eqn:Hturn. cbn [fst snd] in Hok, Hfile. subst r.
  destruct (sweep_raises_on_ill_formed w entry Hin Hill) as (e & w' & Hsweep).
  pose proof (check_expired_blocks_raises _ _ _ Hsweep) as Hgrows.
  rewrite Hsweep in Hfile. cbn [snd] in Hfile.
  assert (Hstep : grows w w1).
  { destruct Hgrows as [extra Hextra]. exists extra. rewrite Hfile. exact Hextra. }
  assert (Hin1 : In entry (stored_events (blocklist_file w1))).
  { destruct Hstep as [extra ->]. apply in_or_app. left. exact Hin. }
  exact (grows_trans _ _ _ Hstep (IH w1 Hin1)).
Qed.

(** X11. [run] never raises: a sweep that fails is reported in the
    audit log as an auto-unblock error, the turn sleeps its 60 seconds all
    the same, and the next turn sweeps again. *)
Theorem run_absorbs_sweep_errors w :
  let asleep w1 log :=
    World (blocklist_file w1) log (clock w1 + 60 * MICROSECONDS) (spawned w1) (host w1) in
  run_once w =
    match check_expired_blocks w with
    | (Ok _, w1) => (Ok tt, asleep w1 (actions_log w1))
    | (Raise e, w1) =>
        (Ok tt,
         asleep w1 (actions_log w1 ++ [LogRecord "ERROR" ("Auto-unblock error: " +:+ exn_str e)]))
    end /\
  forall turns, fst (run turns w) = Ok tt.
Proof.
  cbn zeta. split.
  - unfold run_once, bind, try_except.
    destruct (check_expired_blocks w) as [[[]|e] w1]; reflexivity.
  - intros turns. revert w. induction turns as [|n IH]; intros w; [reflexivity|].
    cbn [run]. unfold bind at 1.
    destruct (run_once_after w) as [Hok _].
    destruct (run_once w) as [r w1]. cbn [fst] in Hok. subst r. apply IH.
Qed.

(** *** What the operations leave alone *)

Lemma bind_rel (R : world -> world -> Prop) {A B} (c : M A) (k : A -> M B) w :
  (forall a b d, R a b -> R b d -> R a d) ->
  R w (snd (c w)) ->
  (forall a w1, R w1 (snd (k a w1))) ->
  R w (snd (bind c k w)).
Proof.
  unfold bind. intros Htrans Hc Hk. destruct (c w) as [[a|e] w1]; cbn [snd] in *.
  - exact (Htrans _ _ _ Hc (Hk a w1)).
  - exact Hc.
Qed.

Lemma log_extends_refl w : log_extends w w.
Proof. exists []. rewrite app_nil_r. reflexivity. Qed.

Lemma log_extends_trans a b d : log_extends a b -> log_extends b d -> log_extends a d.
Proof.
  intros [x1 H1] [x2 H2]. exists (x1 ++ x2). rewrite H2, H1, app_assoc. reflexivity.
Qed.

Lemma log_extends_same w w' : actions_log w' = actions_log w -> log_extends w w'.
Proof. intros Hlog. exists []. rewrite Hlog, app_nil_r. reflexivity. Qed.

Lemma py_getitem_world v k w : snd (py_getitem v k w) = w.
Proof. destruct v; try reflexivity. cbn. destruct (dict_get items k); reflexivity. Qed.

Lemma datetime_fromisoformat_world v w : snd (datetime_fromisoformat v w) = w.
Proof. destruct v; try reflexivity. cbn. destruct (fromisoformat s); reflexivity. Qed.

Lemma datetime_add_hours_world d hours w : snd (datetime_add_hours d hours w) = w.
Proof. unfold datetime_add_hours. destruct (DATETIME_MAX <? _); reflexivity. Qed.

Lemma datetime_gt_world now d w : snd (datetime_gt now d w) = w.
Proof. destruct d; reflexivity. Qed.

Lemma execute_log_extends cmd w : log_extends w (snd (execute_firewall_command cmd w)).
Proof.
  unfold execute_firewall_command, try_except, subprocess_run.
  destruct (argv_of (PStr "sudo" :: cmd)) as [argv|e] eqn:Hargv.
  - unfold bind at 1. unfold bind at 1. unfold launch at 1.
    cbn [blocklist_file actions_log clock spawned host].
    destruct (host w (spawned w) argv) as [cls msg| elapsed rc stderr |] eqn:Hp.
    + eexists. reflexivity.
    + destruct (10 * MICROSECONDS <? elapsed) eqn:Hlt; [eexists; reflexivity|].
      destruct (rc =? 0); [apply log_extends_same; reflexivity|].
      cbn - [py_join String.append]. unfold py_join.
      simpl in Hargv. destruct (argv_of cmd) as [l|] eqn:Hcmd; [|discriminate].
      rewrite (argv_of_join _ _ Hcmd). eexists. reflexivity.
    + eexists. reflexivity.
  - destruct (argv_of_raises _ _ Hargv) as [msg ->]. eexists. reflexivity.
Qed.

Lemma log_action_log_extends ip action w : log_extends w (snd (log_action ip action w)).
Proof.
  rewrite log_action_run.
  destruct (blocklist_file w) as [| error | cls error | doc];
    try (eexists; cbn; try rewrite <- app_assoc; reflexivity).
  destruct doc; eexists; cbn; reflexivity.
Qed.

Lemma apply_both_log_extends mode action ip w :
  log_extends w (snd (apply_both mode action ip w)).
Proof.
  unfold apply_both.
  apply (bind_rel log_extends); [exact log_extends_trans | apply execute_log_extends|].
  intros [success_in m_in] w1.
  apply (bind_rel log_extends); [exact log_extends_trans | apply execute_log_extends|].
  intros [success_out m_out] w2.
  apply (bind_rel log_extends); [exact log_extends_trans | | intros; apply log_extends_refl].
  destruct (success_in || success_out); [apply log_action_log_extends | apply log_extends_refl].
Qed.

Lemma check_entry_log_extends now entry updated_list w :
  log_extends w (snd (check_entry now entry updated_list w)).
Proof.
  unfold check_entry.
  apply (bind_rel log_extends); [exact log_extends_trans | |].
  { rewrite py_getitem_world. apply log_extends_refl. }
  intros action w1.
  destruct (py_ne_str action "blocked"); [apply log_extends_refl|].
  apply (bind_rel log_extends); [exact log_extends_trans | |].
  { rewrite py_getitem_world. apply log_extends_refl. }
  intros time w2.
  apply (bind_rel log_extends); [exact log_extends_trans | |].
  { rewrite datetime_fromisoformat_world. apply log_extends_refl. }
  intros blocked_time w3.
  apply (bind_rel log_extends); [exact log_extends_trans | |].
  { rewrite datetime_add_hours_world. apply log_extends_refl. }
  intros unblock_time w4.
  apply (bind_rel log_extends); [exact log_extends_trans | |].
  { rewrite datetime_gt_world. apply log_extends_refl. }
  intros expired w5.
  destruct expired; [|apply log_extends_refl].
  apply (bind_rel log_extends); [exact log_extends_trans | |].
  { rewrite py_getitem_world. apply log_extends_refl. }
  intros ip w6.
  apply (bind_rel log_extends); [exact log_extends_trans | |].
  { rewrite unblock_ip_shape. apply apply_both_log_extends. }
  intros unblocked w7.
  destruct unblocked; [|apply log_extends_refl].
  apply (bind_rel log_extends); [exact log_extends_trans | |].
  { rewrite py_getitem_world. apply log_extends_refl. }
  intros ip' w8.
  apply (bind_rel log_extends); [exact log_extends_trans | | intros; apply log_extends_refl].
  eexists. reflexivity.
Qed.

Lemma check_entries_log_extends now blocklist :
  forall updated_list w, log_extends w (snd (check_entries now blocklist updated_list w)).
Proof.
  induction blocklist as [|entry rest IH]; intros updated_list w.
  - apply log_extends_refl.
  - cbn [check_entries].
    apply (bind_rel log_extends);
      [exact log_extends_trans | apply check_entry_log_extends | intros; apply IH].
Qed.

Lemma sweep_log_extends w : log_extends w (snd (check_expired_blocks w)).
Proof.
  unfold check_expired_blocks.
  apply (bind_rel log_extends); [exact log_extends_trans | |].
  { rewrite load_blocklist_pure. apply log_extends_refl. }
  intros blocklist w1.
  apply (bind_rel log_extends); [exact log_extends_trans | apply log_extends_refl |].
  intros now w2.
  apply (bind_rel log_extends); [exact log_extends_trans | |].
  { rewrite py_iter_run. apply log_extends_refl. }
  intros entries w3.
  apply (bind_rel log_extends);
    [exact log_extends_trans | apply check_entries_log_extends |].
  intros kept w4. apply log_extends_same. reflexivity.
Qed.

Lemma run_once_log_extends w : log_extends w (snd (run_once w)).
Proof.
  unfold run_once.
  apply (bind_rel log_extends); [exact log_extends_trans | |].
  - unfold try_except. pose proof (sweep_log_extends w) as Hsweep.
    destruct (check_expired_blocks w) as [[[]|e] w1]; cbn [snd] in *; [exact Hsweep|].
    apply (log_extends_trans _ _ _ Hsweep). eexists. reflexivity.
  - intros. apply log_extends_same. reflexivity.
Qed.

(** X12. The audit log is only ever appended to: after [block_ip],
    [unblock_ip], a sweep or any number of turns of [run], whether they
    return or raise, it starts with all the lines it had. *)
Theorem audit_log_is_append_only ip w turns :
  log_extends w (snd (block_ip ip w)) /\
  log_extends w (snd (unblock_ip ip w)) /\
  log_extends w (snd (check_expired_blocks w)) /\
  log_extends w (snd (run turns w)).
Proof.
  split; [rewrite block_ip_shape; apply apply_both_log_extends|].
  split; [rewrite unblock_ip_shape; apply apply_both_log_extends|].
  split; [apply sweep_log_extends|].
  revert w. induction turns as [|n IH]; intros w; [apply log_extends_refl|].
  cbn [run].
  apply (bind_rel log_extends);
    [exact log_extends_trans | apply run_once_log_extends | intros; apply IH].
Qed.

Lemma bind_spawn {A B} (c : M A) (k : A -> M B) w n m :
  (spawned w <= spawned (snd (c w)) <= spawned w + n)%nat ->
  (forall a w1, (spawned w1 <= spawned (snd (k a w1)) <= spawned w1 + m)%nat) ->
  (spawned w <= spawned (snd (bind c k w)) <= spawned w + (n + m))%nat.
Proof.
  unfold bind. intros Hc Hk. destruct (c w) as [[a|e] w1]; cbn [snd] in *.
  - specialize (Hk a w1). lia.
  - lia.
Qed.

Lemma same_world_spawn {A} (c : M A) w n :
  snd (c w) = w -> (spawned w <= spawned (snd (c w)) <= spawned w + n)%nat.
Proof. intros ->. lia. Qed.

Lemma check_entry_other_world now entry updated_list w :
  is_blocked_row entry = false -> snd (check_entry now entry updated_list w) = w.
Proof.
  unfold is_blocked_row, check_entry. intros Hrow.
  destruct entry as [| | | | | |items]; try reflexivity.
  cbn [py_getitem].
  destruct (dict_get items "action") as [action|]; [|reflexivity].
  rewrite (bind_run _ _ _ _ _ (eq_refl : ret action w = (Ok action, w))).
  apply negb_false_iff in Hrow. rewrite Hrow. reflexivity.
Qed.

Lemma check_entry_spawn now entry updated_list w :
  (spawned w <= spawned (snd (check_entry now entry updated_list w))
   <= spawned w + (if is_blocked_row entry then 2 else 0))%nat.
Proof.
  destruct (is_blocked_row entry) eqn:Hrow.
  2:{ rewrite (check_entry_other_world _ _ _ _ Hrow). lia. }
  unfold check_entry.
  apply (bind_spawn _ _ _ 0 2); [apply same_world_spawn, py_getitem_world|].
  intros action w1.
  destruct (py_ne_str action "blocked"); [cbn; lia|].
  apply (bind_spawn _ _ _ 0 2); [apply same_world_spawn, py_getitem_world|].
  intros time w2.
  apply (bind_spawn _ _ _ 0 2); [apply same_world_spawn, datetime_fromisoformat_world|].
  intros blocked_time w3.
  apply (bind_spawn _ _ _ 0 2); [apply same_world_spawn, datetime_add_hours_world|].
  intros unblock_time w4.
  apply (bind_spawn _ _ _ 0 2); [apply same_world_spawn, datetime_gt_world|].
  intros expired w5.
  destruct expired; [|cbn; lia].
  apply (bind_spawn _ _ _ 0 2); [apply same_world_spawn, py_getitem_world|].
  intros ip w6.
  apply (bind_spawn _ _ _ 2 0).
  { rewrite unblock_ip_shape. apply apply_both_counts. }
  intros unblocked w7.
  destruct unblocked; [|cbn; lia].
  apply (bind_spawn _ _ _ 0 0); [apply same_world_spawn, py_getitem_world|].
  intros ip' w8.
  apply (bind_spawn _ _ _ 0 0); [cbn; lia | intros; cbn; lia].
Qed.

Lemma check_entries_spawn now blocklist :
  forall updated_list w,
    (spawned w <= spawned (snd (check_entries now blocklist updated_list w))
     <= spawned w + 2 * length (blocked_rows blocklist))%nat.
Proof.
  induction blocklist as [|entry rest IH]; intros updated_list w.
  - cbn. lia.
  - cbn [check_entries].
    pose proof (bind_spawn (check_entry now entry updated_list)
                  (fun updated_list => check_entries now rest updated_list) w _ _
                  (check_entry_spawn now entry updated_list w)
                  (fun a w1 => IH a w1)) as Hb.
    unfold blocked_rows in *. cbn [List.filter].
    destruct (is_blocked_row entry); cbn [length] in *; lia.
Qed.

Lemma blocked_rows_of_chars s : blocked_rows (string_chars s) = [].
Proof. induction s as [|c s IH]; [reflexivity | exact IH]. Qed.

Lemma blocked_rows_of_keys (items : list (string * pyval)) :
  blocked_rows (map (fun kv => PStr (fst kv)) items) = [].
Proof. induction items as [|kv kvs IH]; [reflexivity | exact IH]. Qed.

(** X13. A sweep launches two processes at most for each ['blocked']
    row of the store and none for any other entry: over a store without
    ['blocked'] rows it runs no command. *)
Theorem sweep_runs_commands_for_blocked_rows_only w :
  (spawned w <= spawned (snd (check_expired_blocks w))
   <= spawned w + 2 * length (blocked_rows (stored_events (blocklist_file w))))%nat.
Proof.
  assert (Hloop : forall entries,
             (spawned w <=
              spawned (snd (bind (check_entries (clock w) entries [])
                                 (fun updated_list => save_blocklist (PList updated_list)) w))
              <= spawned w + 2 * length (blocked_rows entries))%nat).
  { intros entries.
    pose proof (bind_spawn (check_entries (clock w) entries [])
                  (fun updated_list => save_blocklist (PList updated_list)) w _ 0
                  (check_entries_spawn (clock w) entries [] w)) as Hb.
    rewrite Nat.add_0_r in Hb. apply Hb. intros a w1. cbn. lia. }
  assert (Hsweep :
            check_expired_blocks w =
              match fst (load_blocklist w) with
              | Raise e => (Raise e, w)
              | Ok doc =>
                  match fst (py_iter doc w) with
                  | Raise e => (Raise e, w)
                  | Ok entries =>
                      bind (check_entries (clock w) entries [])
                           (fun updated_list => save_blocklist (PList updated_list)) w
                  end
              end).
  { unfold check_expired_blocks. unfold bind at 1. rewrite load_blocklist_run.
    destruct (fst (load_blocklist w)) as [doc|e] eqn:Hload; cbn [fst]; [|reflexivity].
    unfold bind at 1. unfold datetime_now. unfold bind at 1. rewrite py_iter_run.
    destruct (fst (py_iter doc w)) eqn:Hiter; reflexivity. }
  rewrite Hsweep, load_blocklist_result. clear Hsweep.
  destruct (blocklist_file w) as [| error | cls error | doc]; cbn [fst stored_events py_iter ret].
  - exact (Hloop []).
  - exact (Hloop []).
  - cbn. lia.
  - destruct doc; try (cbn; lia).
    + pose proof (Hloop (string_chars s)) as Hs.
      rewrite blocked_rows_of_chars in Hs. exact Hs.
    + exact (Hloop items).
    + pose proof (Hloop (map (fun kv => PStr (fst kv)) items)) as Hs.
      rewrite blocked_rows_of_keys in Hs. exact Hs.
Qed.

(** *** DNS lookup *)

Lemma address_set_spec results :
  NoDup (address_set results) /\
  forall ip, In ip (address_set results) <->
             exists r, In r results /\ fst (ai_sockaddr r) = ip.
Proof.
  unfold address_set. split; [apply NoDup_elements|].
  intros ip. rewrite <- list_elem_of_In, elem_of_elements, elem_of_list_to_set.
  rewrite list_elem_of_In, in_map_iff. split; intros (r & H1 & H2); eauto.
Qed.

(** X14. [lookup_ips] never raises and touches nothing but the audit
    log. For the empty name it asks no resolver and returns the empty
    list; when the resolver raises, it returns the empty list too; both
    times it reports the failure, with the name and the text of the
    error, in the audit log. *)
Theorem lookup_ips_absorbs_failures domain w :
  let report e :=
    LogRecord "ERROR" ("DNS lookup failed for " +:+ domain +:+ ": " +:+ exn_str e) in
  let reported e :=
    World (blocklist_file w) (actions_log w ++ [report e]) (clock w) (spawned w) (host w) in
  (exists ips w',
      lookup_ips domain w = (Ok ips, w') /\
      blocklist_file w' = blocklist_file w /\ clock w' = clock w /\
      spawned w' = spawned w) /\
  (domain = EmptyString ->
   lookup_ips domain w = (Ok [], reported (PyError "ValueError" "Domain cannot be empty"))) /\
  (forall e, domain <> EmptyString -> getaddrinfo (clock w) domain = Raise e ->
             lookup_ips domain w = (Ok [], reported e)).
Proof.
  cbn zeta.
  assert (Hempty : domain = EmptyString ->
            lookup_ips domain w =
              (Ok [],
               World (blocklist_file w)
                 (actions_log w ++
                    [LogRecord "ERROR"
                       ("DNS lookup failed for " +:+ domain +:+ ": " +:+
                          exn_str (PyError "ValueError" "Domain cannot be empty"))])
                 (clock w) (spawned w) (host w))).
  { intros ->. reflexivity. }
  assert (Hraise : forall e, domain <> EmptyString ->
            getaddrinfo (clock w) domain = Raise e ->
            lookup_ips domain w =
              (Ok [],
               World (blocklist_file w)
                 (actions_log w ++
                    [LogRecord "ERROR"
                       ("DNS lookup failed for " +:+ domain +:+ ": " +:+ exn_str e)])
                 (clock w) (spawned w) (host w))).
  { intros e Hne Hans. apply String.eqb_neq in Hne.
    unfold lookup_ips, try_except, bind, socket_getaddrinfo. rewrite Hne. cbn.
    rewrite Hans. reflexivity. }
  split; [|split; assumption].
  destruct (String.eqb domain EmptyString) eqn:Hdom.
  - apply String.eqb_eq in Hdom. rewrite (Hempty Hdom). do 2 eexists.
    split; [reflexivity|]. repeat split.
  - apply String.eqb_neq in Hdom.
    destruct (getaddrinfo (clock w) domain) as [results|e] eqn:Hans.
    + unfold lookup_ips, try_except, bind, socket_getaddrinfo.
      apply String.eqb_neq in Hdom. rewrite Hdom. cbn. rewrite Hans.
      do 2 eexists. split; [reflexivity|]. repeat split.
    + rewrite (Hraise e Hdom eq_refl). do 2 eexists. split; [reflexivity|]. repeat split.
Qed.

(** X15. When the resolver answers for a name that is not empty,
    [lookup_ips] returns the addresses of the answers, each one once: an
    address is in the result exactly when an answer carries it. It logs
    nothing and changes nothing. *)
Theorem lookup_ips_lists_each_address_once domain results w :
  domain <> EmptyString ->
  getaddrinfo (clock w) domain = Ok results ->
  exists ips,
    lookup_ips domain w = (Ok ips, w) /\
    NoDup ips /\
    forall ip, In ip ips <-> exists r, In r results /\ fst (ai_sockaddr r) = ip.
Proof.
  intros Hne Hans. exists (address_set results). split.
  - unfold lookup_ips, try_except, bind, socket_getaddrinfo.
    apply String.eqb_neq in Hne. rewrite Hne. cbn. rewrite Hans.
    destruct (address_set results); reflexivity.
  - apply address_set_spec.
Qed.

(** *** The pages *)

(** X16. With an empty address field the page of manual blocking
    touches nothing: whichever button is clicked, no command is run, no
    file or log changes, and an error asks for an address. *)
Theorem manual_page_rejects_empty_address f u w :
  manual_ip f = EmptyString ->
  let ask := ErrorBox "Please enter a valid IP address" in
  show_manual_blocking f u w =
    (Done tt,
     Ui (page u ++ Subheader "Manual IP Management"
                   :: (if block_clicked f then [ask] else [])
                   ++ (if unblock_clicked f then [ask] else []))
        (domain_ips u),
     w).
Proof.
  intros Hip. cbn zeta.
  unfold show_manual_blocking, st_bind, st_write, st_ret. rewrite Hip.
  destruct (block_clicked f), (unblock_clicked f); cbn [String.eqb negb page domain_ips app];
    repeat rewrite <- app_assoc; reflexivity.
Qed.

(** X17. When both commands of a manual block succeed, the page shows
    the success and reruns at once: nothing after it runs, so an unblock
    click of the same run is not acted on. *)
Theorem manual_page_reruns_after_block f u w w' :
  block_clicked f = true ->
  manual_ip f <> EmptyString ->
  block_ip (PStr (manual_ip f)) w = (Ok true, w') ->
  show_manual_blocking f u w =
    (Rerun,
     Ui ((page u ++ [Subheader "Manual IP Management"])
           ++ [Success ("IP " +:+ manual_ip f +:+ " blocked successfully!")])
        (domain_ips u),
     w').
Proof.
  intros Hclick Hip Hblock. apply String.eqb_neq in Hip.
  unfold show_manual_blocking, st_bind, st_call, st_write, st_rerun. cbn zeta.
  rewrite Hclick, Hip. cbn [negb]. rewrite Hblock. reflexivity.
Qed.

(** X18. A manual block that succeeds for one direction only is shown
    as a failure, although its rule is in place and its ['blocked'] event
    is in the store; when both directions fail the same error is shown and
    nothing is recorded. *)
Theorem manual_page_reports_partial_block_as_failure
    f u w b_in m_in w1 b_out m_out w2 :
  block_clicked f = true ->
  unblock_clicked f = false ->
  manual_ip f <> EmptyString ->
  holds_log (blocklist_file w) ->
  execute_firewall_command (rule "-A" "INPUT" "-s" (PStr (manual_ip f))) w
    = (Ok (b_in, m_in), w1) ->
  execute_firewall_command (rule "-A" "OUTPUT" "-d" (PStr (manual_ip f))) w1
    = (Ok (b_out, m_out), w2) ->
  b_in && b_out = false ->
  exists w',
    show_manual_blocking f u w =
      (Done tt,
       Ui ((page u ++ [Subheader "Manual IP Management"])
             ++ [ErrorBox ("Failed to block IP " +:+ manual_ip f)])
          (domain_ips u),
       w') /\
    stored_events (blocklist_file w') =
      stored_events (blocklist_file w) ++
        (if b_in || b_out
         then [log_entry_at (clock w2) (PStr (manual_ip f)) "blocked"] else []).
Proof.
  intros Hclick Hno Hip Hlog Hin Hout Hboth. apply String.eqb_neq in Hip.
  assert (Hblock : exists w',
             block_ip (PStr (manual_ip f)) w = (Ok false, w') /\
             stored_events (blocklist_file w') =
               stored_events (blocklist_file w) ++
                 (if b_in || b_out
                  then [log_entry_at (clock w2) (PStr (manual_ip f)) "blocked"] else [])).
  { rewrite block_ip_shape. destruct (b_in || b_out) eqn:Hany.
    - destruct (apply_both_either "-A" "blocked" _ w _ _ _ _ _ _ Hlog Hin Hout Hany)
        as (w' & Hrun & Hfile & _).
      exists w'. rewrite Hboth in Hrun. split; [exact Hrun|]. rewrite Hfile. reflexivity.
    - apply orb_false_elim in Hany as [-> ->].
      destruct (apply_both_neither "-A" "blocked" _ w _ _ _ _ Hin Hout) as [Hrun Hfile].
      exists w2. split; [exact Hrun|]. rewrite Hfile, app_nil_r. reflexivity. }
  destruct Hblock as (w' & Hblock & Hstore). exists w'. split; [|exact Hstore].
  unfold show_manual_blocking, st_bind, st_call, st_write, st_ret. cbn zeta.
  rewrite Hclick, Hno, Hip. cbn [negb]. rewrite Hblock. reflexivity.
Qed.

Lemma st_selectbox_in options chosen :
  options <> [] -> In (st_selectbox options chosen) options.
Proof.
  intros Hne. unfold st_selectbox.
  assert (Hhd : In (hd EmptyString options) options)
    by (destruct options; [contradiction | left; reflexivity]).
  destruct chosen as [s|]; [|exact Hhd].
  destruct (existsb (String.eqb s) options) eqn:Hex; [|exact Hhd].
  apply existsb_exists in Hex as (x & Hx & Heq).
  apply String.eqb_eq in Heq. subst x. exact Hx.
Qed.

(** X19. A lookup that finds no address (the name is unknown, or the
    resolver fails) warns and leaves the addresses of the previous lookup
    on offer; a lookup that finds some replaces them. *)
Theorem domain_page_keeps_addresses_when_lookup_finds_none f u w ips w1 :
  lookup_clicked f = true ->
  block_selected_clicked f = false ->
  domain_input f <> EmptyString ->
  lookup_ips (domain_input f) w = (Ok ips, w1) ->
  show_domain_lookup f u w =
    (Done tt,
     Ui ((page u ++ [Subheader "Domain IP Lookup"])
           ++ [match ips with
               | [] => Warning "No IP addresses found for this domain"
               | _ :: _ => Success ("Found " +:+ pretty (length ips) +:+ " IP addresses")
               end])
        (match ips with [] => domain_ips u | _ :: _ => ips end),
     w1).
Proof.
  intros Hclick Hno Hdom Hlookup. apply String.eqb_neq in Hdom.
  unfold show_domain_lookup, st_bind, st_call, st_write, st_ret,
    set_domain_ips, get_domain_ips. cbn zeta.
  rewrite Hclick, Hdom. cbn [negb]. rewrite Hlookup.
  destruct ips as [|ip ips]; cbn [page domain_ips].
  - rewrite Hno. destruct (domain_ips u); reflexivity.
  - rewrite Hno. reflexivity.
Qed.

(** X20. From the page of the domain lookup only an address on offer
    can be blocked: a click on the block button blocks one of the
    addresses kept from the last lookup that found some, and while none
    is kept the page runs no command at all. *)
Theorem domain_page_blocks_offered_address_only f u w :
  lookup_clicked f = false ->
  (domain_ips u = [] ->
   show_domain_lookup f u w =
     (Done tt, Ui (page u ++ [Subheader "Domain IP Lookup"]) (domain_ips u), w)) /\
  (domain_ips u <> [] -> block_selected_clicked f = true ->
   exists ip,
     In ip (domain_ips u) /\
     show_domain_lookup f u w =
       let shown := page u ++ [Subheader "Domain IP Lookup"] in
       match block_ip (PStr ip) w with
       | (Ok true, w') =>
           (Rerun,
            Ui (shown ++ [Success ("IP " +:+ ip +:+ " blocked successfully!")]) (domain_ips u),
            w')
       | (Ok false, w') =>
           (Done tt,
            Ui (shown ++ [ErrorBox ("Failed to block IP " +:+ ip)]) (domain_ips u), w')
       | (Raise e, w') => (Raised e, Ui shown (domain_ips u), w')
       end).
Proof.
  intros Hlookup. split.
  - intros Hnone.
    unfold show_domain_lookup, st_bind, st_call, st_write, st_ret, get_domain_ips.
    rewrite Hlookup. cbn [page domain_ips]. rewrite Hnone. reflexivity.
  - intros Hsome Hclick.
    exists (st_selectbox (domain_ips u) (ip_select f)).
    split; [exact (st_selectbox_in _ _ Hsome)|].
    unfold show_domain_lookup, st_bind, st_call, st_write, st_ret, st_rerun, get_domain_ips.
    rewrite Hlookup. cbn [page domain_ips].
    destruct (domain_ips u) as [|o os] eqn:Hoptions; [contradiction|].
    rewrite Hclick.
    destruct (block_ip (PStr (st_selectbox (o :: os) (ip_select f))) w)
      as [[[]|e] w']; reflexivity.
Qed.

End Further.

(** ** The further properties on worked worlds *)

Module FurtherWorked.

Import Examples MoreExamples.

Lemma log_action_over_unreadable_store :
  let w := world_with unreadable [] in
  let e := log_entry_at (H := IsoText.iso) (clock w) addr "blocked" in
  exists w',
    log_action (H := IsoText.iso) addr "blocked" w = (Ok tt, w') /\
    blocklist_file w' = Json (PList [e]) /\
    actions_log w' =
      actions_log w ++ JsonLine e ::
        [LogRecord "ERROR"
           "Error loading blocklist: [Errno 13] Permission denied: 'data/blocklist.json'"].
Proof.
  intros w e.
  exact (log_action_replaces_unusable_store (H := IsoText.iso) addr "blocked" w
           ltac:(discriminate)).
Defined.

Lemma unblock_ip_partial_success_recorded :
  let w := world_with log3 [refuses; succeeds] in
  exists w',
    unblock_ip (H := IsoText.iso) addr w = (Ok false, w') /\
    stored_events (blocklist_file w') =
      [old_unblock; old_block; fresh_block;
       entry "2024-05-01T12:00:00.040000" "198.51.100.7" "unblocked"].
Proof.
  intros w.
  pose proof (unblock_ip_records_on_either_returns_both (H := IsoText.iso)
                addr w false _ _ true _ _ I eq_refl eq_refl) as Hw.
  exact Hw.
Defined.

Lemma block_ip_raises_over_object_store :
  let w := world_with not_a_log [succeeds; refuses] in
  exists w',
    block_ip (H := IsoText.iso) addr w =
      (Raise (PyError "AttributeError" "'dict' object has no attribute 'append'"), w') /\
    blocklist_file w' = not_a_log /\
    exists before,
      actions_log w' =
        before ++ [JsonLine (entry "2024-05-01T12:00:00.040000" "198.51.100.7" "blocked")].
Proof.
  intros w.
  destruct (block_ip_raises_on_non_array_store (H := IsoText.iso)
              addr w (PDict [("blocked", PList [])]) true _ _ false _ _
              eq_refl ltac:(discriminate) eq_refl eq_refl eq_refl)
    as (w' & Hrun & Hfile & Hlog).
  exists w'. split; [exact Hrun|]. split; [exact Hfile|]. eexists. exact Hlog.
Defined.

Lemma numeric_address_never_runs :
  let w := world_with log_numeric [succeeds; succeeds] in
  fst (unblock_ip (H := IsoText.iso) (PInt 3232235777) w) = Ok false /\
  spawned (snd (unblock_ip (H := IsoText.iso) (PInt 3232235777) w)) = O.
Proof.
  intros w.
  destruct (non_str_address_never_runs (H := IsoText.iso) (PInt 3232235777) w
              ltac:(discriminate)) as [_ Hunblock].
  rewrite Hunblock. split; reflexivity.
Defined.

Lemma sweep_over_quiet_log :
  let w := world_with log_quiet [succeeds; succeeds] in
  check_expired_blocks (H := IsoText.iso) w = (Ok tt, w).
Proof.
  intros w.
  refine (sweep_without_due_entries_is_noop (H := IsoText.iso) w
            [old_unblock; hour_old_block; fresh_block] eq_refl _).
  intros e [<- | [<- | [<- | []]]]; reflexivity.
Defined.

Lemma sweep_over_missing_store :
  let w := world_with Missing [] in
  check_expired_blocks (H := IsoText.iso) w =
    (Ok tt, World (Json (PList [])) (actions_log w) (clock w) (spawned w) (host w)).
Proof.
  intros w.
  exact (sweep_over_unusable_store (H := IsoText.iso) w ltac:(discriminate)).
Defined.

Lemma entry_without_time_stops_pruning :
  let w := world_with log_broken [succeeds; succeeds] in
  (exists e w', check_expired_blocks (H := IsoText.iso) w = (Raise e, w')) /\
  forall turns, grows w (snd (run (H := IsoText.iso) turns w)).
Proof.
  intros w.
  exact (ill_formed_entry_stops_pruning (H := IsoText.iso) w no_time_block
           (or_intror (or_intror (or_introl eq_refl))) eq_refl).
Defined.

Lemma lookup_of_example_org :
  let w := world_with Missing [] in
  exists ips,
    lookup_ips (H := names) "example.org" w = (Ok ips, w) /\
    NoDup ips /\
    forall ip, In ip ips <-> exists r, In r answers /\ fst (ai_sockaddr r) = ip.
Proof.
  intros w.
  exact (lookup_ips_lists_each_address_once (H0 := names) "example.org" answers w
           ltac:(discriminate) eq_refl).
Defined.

Lemma manual_page_with_empty_field :
  let w := world_with log3 [succeeds; succeeds] in
  show_manual_blocking (H := IsoText.iso) (click_block EmptyString) empty_page w =
    (Done tt,
     Ui [Subheader "Manual IP Management"; ErrorBox "Please enter a valid IP address"] [],
     w).
Proof.
  intros w.
  exact (manual_page_rejects_empty_address (H := IsoText.iso)
           (click_block EmptyString) empty_page w eq_refl).
Defined.

Lemma manual_page_after_full_block :
  let w := world_with log3 [succeeds; succeeds] in
  let w' := snd (block_ip (H := IsoText.iso) addr w) in
  show_manual_blocking (H := IsoText.iso) (click_block "198.51.100.7") empty_page w =
    (Rerun,
     Ui [Subheader "Manual IP Management";
         Success "IP 198.51.100.7 blocked successfully!"] [],
     w').
Proof.
  intros w w'.
  exact (manual_page_reruns_after_block (H := IsoText.iso)
           (click_block "198.51.100.7") empty_page w w' eq_refl ltac:(discriminate) eq_refl).
Defined.

Lemma manual_page_after_partial_block :
  let w := world_with log3 [succeeds; refuses] in
  exists w',
    show_manual_blocking (H := IsoText.iso) (click_block "198.51.100.7") empty_page w =
      (Done tt,
       Ui [Subheader "Manual IP Management"; ErrorBox "Failed to block IP 198.51.100.7"] [],
       w') /\
    stored_events (blocklist_file w') =
      [old_unblock; old_block; fresh_block;
       entry "2024-05-01T12:00:00.040000" "198.51.100.7" "blocked"].
Proof.
  intros w.
  pose proof (manual_page_reports_partial_block_as_failure (H := IsoText.iso)
                (click_block "198.51.100.7") empty_page w true _ _ false _ _
                eq_refl eq_refl ltac:(discriminate) I eq_refl eq_refl eq_refl) as Hw.
  exact Hw.
Defined.

Lemma failed_lookup_keeps_offer :
  let w := world_with Missing [] in
  exists w1,
    show_domain_lookup (H := IsoText.iso) (H0 := names)
        (click_lookup "no-such-name.invalid") (offering ["93.184.216.34"]) w =
      (Done tt,
       Ui [Subheader "Domain IP Lookup"; Warning "No IP addresses found for this domain"]
          ["93.184.216.34"],
       w1).
Proof.
  intros w. eexists.
  exact (domain_page_keeps_addresses_when_lookup_finds_none
           (H := IsoText.iso) (H0 := names)
           (click_lookup "no-such-name.invalid") (offering ["93.184.216.34"]) w [] _
           eq_refl eq_refl ltac:(discriminate) eq_refl).
Defined.

Lemma block_selected_without_offer :
  let w := world_with log3 [succeeds; succeeds] in
  show_domain_lookup (H := IsoText.iso) (H0 := names)
      (click_block_selected (Some "198.51.100.7")) empty_page w =
    (Done tt, Ui [Subheader "Domain IP Lookup"] [], w).
Proof.
  intros w.
  exact (proj1 (domain_page_blocks_offered_address_only (H := IsoText.iso) (H0 := names)
                  (click_block_selected (Some "198.51.100.7")) empty_page w eq_refl)
               eq_refl).
Defined.

End FurtherWorked.

(** ** The report after a manual unblock *)

Section ReportProperties.

Context `{DateTime} `{Pandas}.

Lemma has_column_In c cols : has_column c cols = true <-> In c cols.
Proof.
  unfold has_column. rewrite existsb_exists. split.
  - intros (x & Hin & Heq). apply String.eqb_eq in Heq. subst x. exact Hin.
  - intros Hin. exists c. split; [exact Hin | apply String.eqb_refl].
Qed.

Lemma add_column_incl k cols c : In c cols -> In c (add_column k cols).
Proof.
  unfold add_column. destruct (has_column k cols); [auto|].
  intros Hin. apply in_or_app. left. exact Hin.
Qed.

Lemma add_column_self k cols : In k (add_column k cols).
Proof.
  unfold add_column. destruct (has_column k cols) eqn:E.
  - apply has_column_In. exact E.
  - apply in_or_app. right. left. reflexivity.
Qed.

Lemma add_keys_incl d : forall cols c, In c cols -> In c (add_keys cols d).
Proof.
  induction d as [|[k v] d IH]; intros cols c Hin; cbn [add_keys]; [exact Hin|].
  apply IH, add_column_incl, Hin.
Qed.

Lemma add_keys_key d : forall cols k v, dict_get d k = Some v -> In k (add_keys cols d).
Proof.
  induction d as [|[k' v'] d IH]; intros cols k v; cbn [dict_get add_keys]; [discriminate|].
  destruct (String.eqb k' k) eqn:E.
  - intros _. apply String.eqb_eq in E. subst k'. apply add_keys_incl, add_column_self.
  - intros Hget. exact (IH _ _ _ Hget).
Qed.

Lemma collect_columns_incl dicts :
  forall cols c, In c cols -> In c (collect_columns cols dicts).
Proof.
  induction dicts as [|d dicts IH]; intros cols c Hin; cbn [collect_columns]; [exact Hin|].
  apply IH, add_keys_incl, Hin.
Qed.

(** A key of one of the [dict]s is a column of their frame. *)
Lemma collect_columns_key dicts :
  forall cols d k v,
    In d dicts -> dict_get d k = Some v -> In k (collect_columns cols dicts).
Proof.
  induction dicts as [|d' dicts IH]; intros cols d k v Hin Hget; [destruct Hin|].
  cbn [collect_columns]. destruct Hin as [-> | Hin].
  - apply collect_columns_incl. exact (add_keys_key _ _ _ _ Hget).
  - exact (IH _ _ _ _ Hin Hget).
Qed.

Lemma as_dicts_In l1 d l2 :
  forall dicts, as_dicts (l1 ++ PDict d :: l2) = Some dicts -> In d dicts.
Proof.
  induction l1 as [|x l1 IH]; intros dicts; cbn [app as_dicts].
  - destruct (as_dicts l2); [|discriminate]. intros [= <-]. left. reflexivity.
  - destruct x; try discriminate.
    destruct (as_dicts (l1 ++ PDict d :: l2)) as [ds|]; [|discriminate].
    intros [= <-]. right. exact (IH _ eq_refl).
Qed.

Lemma row_get_row_of cols d k : In k cols -> row_get (row_of cols d) k = cell_of d k.
Proof.
  induction cols as [|c cols IH]; intros Hin; [destruct Hin|].
  cbn [row_of map row_get]. destruct (String.eqb c k) eqn:E.
  - apply String.eqb_eq in E. subst c. reflexivity.
  - destruct Hin as [-> | Hin]; [rewrite String.eqb_refl in E; discriminate|].
    exact (IH Hin).
Qed.

Lemma row_get_row_put c x row k :
  c <> k -> row_get (row_put c x row) k = row_get row k.
Proof.
  intros Hne. induction row as [|[k' y] row IH]; cbn [row_put row_get].
  - apply String.eqb_neq in Hne. rewrite Hne. reflexivity.
  - destruct (String.eqb k' c) eqn:E; cbn [row_get].
    + apply String.eqb_eq in E. subst k'.
      apply String.eqb_neq in Hne. rewrite Hne. reflexivity.
    + rewrite IH. reflexivity.
Qed.

Lemma zip_with_has {A B C} (f : A -> B -> C) l :
  forall xs a, In a l -> length xs = length l -> exists x, In (f a x) (zip_with f l xs).
Proof.
  induction l as [|a' l IH]; intros xs a Hin Hlen; [destruct Hin|].
  destruct xs as [|x xs]; [discriminate|]. cbn [zip_with].
  destruct Hin as [-> | Hin].
  - exists x. left. reflexivity.
  - injection Hlen as Hlen. destruct (IH xs a Hin Hlen) as (x' & Hx).
    exists x'. right. exact Hx.
Qed.

Lemma frame_empty_false cols rws c r :
  In c cols -> In r rws -> frame_empty (Frame cols rws) = false.
Proof.
  intros Hc Hr. destruct cols; [destruct Hc|]. destruct rws; [destruct Hr|]. reflexivity.
Qed.

(** What [get_blocked_ips_data] returns over a log of [dict]s one of which
    has a time: the frame of the [dict]s with the times converted, or the
    empty frame after the error of the conversion was logged. *)
Lemma get_blocked_ips_data_of_dicts w events dicts d tv :
  blocklist_file w = Json (PList events) ->
  as_dicts events = Some dicts ->
  In d dicts ->
  dict_get d "time" = Some tv ->
  let cols := collect_columns [] dicts in
  get_blocked_ips_data w =
    match to_datetime (map (fun d => cell_of d "time") dicts) with
    | Ok converted =>
        if Nat.eqb (length converted) (length dicts)
        then (Ok (Frame (add_column "time" cols)
                        (zip_with (fun row x => row_put "time" x row)
                                  (map (row_of cols) dicts) converted)), w)
        else (Ok empty_frame,
              World (blocklist_file w)
                    (actions_log w ++
                       [LogRecord "ERROR"
                          ("Error loading blocked IP data: " +:+
                             ("Length of values (" +:+ pretty (length converted)
                                +:+ ") does not match length of index ("
                                +:+ pretty (length dicts) +:+ ")"))])
                    (clock w) (spawned w) (host w))
    | Raise err =>
        (Ok empty_frame,
         World (blocklist_file w)
               (actions_log w ++
                  [LogRecord "ERROR" ("Error loading blocked IP data: " +:+ exn_str err)])
               (clock w) (spawned w) (host w))
    end.
Proof.
  intros Hfile Hdicts Hin Htime cols.
  assert (Hcol : In "time" cols) by exact (collect_columns_key _ _ _ _ _ Hin Htime).
  unfold get_blocked_ips_data, try_except.
  unfold bind at 1. rewrite load_blocklist_run, load_blocklist_result, Hfile.
  cbn [fst]. unfold bind at 1. unfold pd_DataFrame at 1. rewrite Hdicts.
  unfold frame_of_dicts. fold cols.
  rewrite (frame_empty_false _ _ _ _ Hcol (in_map (row_of cols) _ _ Hin)).
  cbn [negb]. unfold bind at 1. unfold frame_getitem at 1. cbn [columns rows].
  rewrite (proj2 (has_column_In _ _) Hcol). cbn [ret].
  unfold bind at 1. unfold pd_to_datetime at 1.
  rewrite map_map.
  rewrite (map_ext_in (fun x => row_get (row_of cols x) "time") (fun d => cell_of d "time"))
    by (intros; apply row_get_row_of; exact Hcol).
  destruct (to_datetime (map (fun d => cell_of d "time") dicts)) as [converted|err].
  - unfold frame_setitem. cbn [columns rows]. rewrite length_map.
    destruct (Nat.eqb (length converted) (length dicts)); [reflexivity|].
    unfold raise, bind, logging_error, write_actions_log, ret.
    cbn [exn_str blocklist_file actions_log clock spawned host]. rewrite ?Hfile. reflexivity.
  - unfold raise, bind, logging_error, write_actions_log, ret.
    cbn [exn_str blocklist_file actions_log clock spawned host]. rewrite ?Hfile. reflexivity.
Qed.

(** C6. Let the store hold a ['blocked'] event of an address, and let the
    address be unblocked by hand. [unblock_ip] returns whether both
    commands succeeded; it appends its ['unblocked'] event when at least
    one of them succeeded and nothing otherwise, and the earlier
    ['blocked'] event stays where it was. The report made at once shows
    the row of that event among the blocks in force when the events are
    all objects and pandas converts their times; when the conversion
    fails the report has no rows at all and warns that there is nothing to
    show. The event goes when a later sweep, run past its time-to-live,
    succeeds in reversing it: the store then holds what the sweep kept of
    the events before it and of the events after it. *)
Theorem unblock_ip_leaves_blocked_event_until_sweep
    ip w pre e post items b_in m_in w1 b_out m_out w2 :
  blocklist_file w = Json (PList (pre ++ e :: post)) ->
  e = PDict items ->
  dict_get items "action" = Some (PStr "blocked") ->
  dict_get items "ip" = Some ip ->
  execute_firewall_command (rule "-D" "INPUT" "-s" ip) w = (Ok (b_in, m_in), w1) ->
  execute_firewall_command (rule "-D" "OUTPUT" "-d" ip) w1 = (Ok (b_out, m_out), w2) ->
  let appended :=
    if b_in || b_out then [log_entry_at (clock w2) ip "unblocked"] else [] in
  let w' := snd (unblock_ip ip w) in
  fst (unblock_ip ip w) = Ok (b_in && b_out) /\
  blocklist_file w' = Json (PList (pre ++ e :: post ++ appended)) /\
  (forall u dicts tv,
      as_dicts (pre ++ e :: post ++ appended) = Some dicts ->
      dict_get items "time" = Some tv ->
      match to_datetime (map (fun d => cell_of d "time") dicts) with
      | Ok converted =>
          length converted = length dicts ->
          exists blocked x,
            visualize_blocked_ips u w' = (Done (Some blocked), u, w') /\
            In (row_put "time" x (row_of (collect_columns [] dicts) items)) (rows blocked)
      | Raise err =>
          visualize_blocked_ips u w' =
            (Done None,
             Ui (page u ++ [Warning "No blocked IPs to visualize."]) (domain_ips u),
             World (blocklist_file w')
                   (actions_log w' ++
                      [LogRecord "ERROR" ("Error loading blocked IP data: " +:+ exn_str err)])
                   (clock w') (spawned w') (host w'))
      end) /\
  (forall ws wf s t kept w3 w4,
      blocklist_file ws = blocklist_file w' ->
      dict_get items "time" = Some (PStr s) ->
      fromisoformat s = Some (Naive t) ->
      t + TTL < clock ws ->
      check_entries (clock ws) pre [] ws = (Ok kept, w3) ->
      unblock_ip ip w3 = (Ok true, w4) ->
      check_expired_blocks ws = (Ok tt, wf) ->
      exists kept_post,
        blocklist_file wf = Json (PList (kept ++ kept_post)) /\
        kept `sublist_of` pre /\ kept_post `sublist_of` post ++ appended).
Proof.
  intros Hfile He Haction Hip Hin Hout appended w'.
  assert (Hrun : unblock_ip ip w = (Ok (b_in && b_out), w') /\
                 blocklist_file w' = Json (PList (pre ++ e :: post ++ appended))).
  { subst w' appended. rewrite unblock_ip_shape. destruct (b_in || b_out) eqn:Hany.
    - assert (Hlog : holds_log (blocklist_file w)) by (rewrite Hfile; exact I).
      destruct (apply_both_either "-D" "unblocked" ip w _ _ _ _ _ _ Hlog Hin Hout Hany)
        as (wa & Hrun & Hstore & _).
      rewrite Hrun. cbn [snd]. split; [reflexivity|].
      rewrite Hstore, Hfile. cbn [stored_events]. rewrite <- app_assoc. reflexivity.
    - apply orb_false_elim in Hany as [-> ->].
      destruct (apply_both_neither "-D" "unblocked" ip w _ _ _ _ Hin Hout) as [Hrun Hstore].
      rewrite Hrun. cbn [snd]. split; [reflexivity|].
      rewrite Hstore, Hfile, app_nil_r. reflexivity. }
  destruct Hrun as [Hrun Hstore].
  split; [rewrite Hrun; reflexivity|]. split; [exact Hstore|]. split.
  - intros u dicts tv Hdicts Htime.
    assert (Hmem : In items dicts).
    { subst e. exact (as_dicts_In _ _ _ _ Hdicts). }
    pose proof (get_blocked_ips_data_of_dicts w' _ dicts items tv Hstore Hdicts Hmem Htime)
      as Hdata.
    cbn zeta in Hdata.
    assert (Hcol : In "action" (collect_columns [] dicts))
      by exact (collect_columns_key _ _ _ _ _ Hmem Haction).
    destruct (to_datetime (map (fun d => cell_of d "time") dicts)) as [converted|err].
    + intros Hlen. rewrite Hlen, Nat.eqb_refl in Hdata.
      destruct (zip_with_has (fun row x => row_put "time" x row)
                  (map (row_of (collect_columns [] dicts)) dicts) converted
                  (row_of (collect_columns [] dicts) items))
        as (x & Hx).
      { apply in_map. exact Hmem. }
      { rewrite length_map. exact Hlen. }
      assert (Hkeep : cell_eq_str
                        (row_get (row_put "time" x (row_of (collect_columns [] dicts) items))
                                 "action") "blocked" = true).
      { rewrite row_get_row_put by discriminate.
        rewrite (row_get_row_of _ _ _ Hcol). unfold cell_of. rewrite Haction. reflexivity. }
      eexists. exists x. split.
      * unfold visualize_blocked_ips, st_bind, st_call. rewrite Hdata.
        rewrite (frame_empty_false _ _ _ _ (add_column_incl "time" _ _ Hcol) Hx).
        unfold frame_where_eq. cbn [columns rows].
        rewrite (proj2 (has_column_In _ _) (add_column_incl "time" _ _ Hcol)).
        cbn [ret].
        rewrite (frame_empty_false _ _ "action"
                   (row_put "time" x (row_of (collect_columns [] dicts) items))
                   (add_column_incl "time" _ _ Hcol)).
        -- reflexivity.
        -- apply filter_In. split; [exact Hx | exact Hkeep].
      * cbn [rows]. apply filter_In. split; [exact Hx | exact Hkeep].
    + unfold visualize_blocked_ips, st_bind, st_call. rewrite Hdata. reflexivity.
  - intros ws wf s t kept w3 w4 Hsame Htime Hparse Hexpired Hpre Hunblock Hsweep.
    assert (Hsnap : snapshot ws = (Ok (pre ++ e :: post ++ appended), ws)).
    { unfold snapshot. unfold bind at 1.
      rewrite load_blocklist_run, load_blocklist_result, Hsame, Hstore. reflexivity. }
    destruct (sweep_at_expired_entry _ _ _ _ _ _ _ _ _ _ _
                Hsnap He Haction Htime Hparse Hip Hexpired Hpre Hsweep)
      as (b & w4' & kept_post & Hunblock' & Hkept & Hsub_pre & Hsub_post).
    rewrite Hunblock in Hunblock'. injection Hunblock' as <- <-.
    exists kept_post. cbn [app] in Hkept. auto.
Qed.

End ReportProperties.

(** ** The report on worked worlds *)

Module ReportWorked.

Import Examples MoreExamples.

(** The address was blocked at 11:55 and is unblocked by hand at T0: the
    store then holds both events, the report shows the row of the
    ['blocked'] event, and the sweep of 12:56, whose reversal succeeds,
    leaves a store without it. *)
Lemma manual_unblock_then_report_then_sweep :
  let w := world_with log_fine [succeeds; succeeds] in
  let w' := snd (unblock_ip (H := IsoText.iso) addr w) in
  let unblocked := entry "2024-05-01T12:00:00.040000" "198.51.100.7" "unblocked" in
  let swept :=
    snd (check_expired_blocks (H := IsoText.iso)
           (later_world (blocklist_file w') [succeeds; succeeds])) in
  fst (unblock_ip (H := IsoText.iso) addr w) = Ok true /\
  blocklist_file w' = Json (PList [early_unblock; recent_block; unblocked]) /\
  (exists blocked x,
      visualize_blocked_ips (H := pandas2) empty_page w' =
        (Done (Some blocked), empty_page, w') /\
      In [("time", x); ("ip", Obj (PStr "198.51.100.7")); ("action", Obj (PStr "blocked"))]
         (rows blocked)) /\
  (exists kept_post,
      blocklist_file swept = Json (PList ([early_unblock] ++ kept_post)) /\
      kept_post `sublist_of` [unblocked]).
Proof.
  intros w w' unblocked swept.
  pose proof (unblock_ip_leaves_blocked_event_until_sweep (H := IsoText.iso) (H0 := pandas2)
                addr w [early_unblock] recent_block [] _ true _ _ true _ _
                eq_refl eq_refl eq_refl eq_refl eq_refl eq_refl)
    as (Hret & Hfile & Hreport & Hsweep).
  split; [exact Hret|]. split; [vm_compute; reflexivity|]. split.
  - specialize (Hreport empty_page _ _ eq_refl eq_refl).
    vm_compute in Hreport.
    destruct (Hreport eq_refl) as (blocked & x & Hrun & Hin).
    exists blocked, x. split; [vm_compute; exact Hrun | exact Hin].
  - pose (ws := later_world (blocklist_file w') [succeeds; succeeds]).
    pose (w3 := snd (check_entries (H := IsoText.iso) (clock ws) [early_unblock] [] ws)).
    pose (w4 := snd (unblock_ip (H := IsoText.iso) addr w3)).
    destruct (Hsweep ws swept "2024-05-01T11:55:00.310000" 63850161300310000
                [early_unblock] w3 w4
                eq_refl eq_refl
                ltac:(vm_compute; reflexivity) ltac:(vm_compute; reflexivity)
                ltac:(vm_compute; reflexivity) ltac:(vm_compute; reflexivity)
                ltac:(vm_compute; reflexivity))
      as (kept_post & Hstore & _ & Hsub).
    exists kept_post. split; [exact Hstore | exact Hsub].
Defined.

(** Two worlds on which the unconditional statement fails. When both
    commands of the unblock are refused, no ['unblocked'] event is
    appended. When the earlier events were written on whole seconds and
    the new one was not, pandas 2 refuses the column of times: the report
    has no rows, warns that there is nothing to show, and so does not
    show the ['blocked'] event that is still stored. *)
Lemma manual_unblock_without_event_or_report :
  (let w := world_with log3 [refuses; refuses] in
   let w' := snd (unblock_ip (H := IsoText.iso) addr w) in
   fst (unblock_ip (H := IsoText.iso) addr w) = Ok false /\
   In old_block (stored_events log3) /\
   stored_events (blocklist_file w') = stored_events log3) /\
  (let w := world_with log3 [succeeds; succeeds] in
   let w' := snd (unblock_ip (H := IsoText.iso) addr w) in
   fst (unblock_ip (H := IsoText.iso) addr w) = Ok true /\
   stored_events (blocklist_file w') =
     [old_unblock; old_block; fresh_block;
      entry "2024-05-01T12:00:00.040000" "198.51.100.7" "unblocked"] /\
   fst (visualize_blocked_ips (H := pandas2) empty_page w') =
     (Done None, Ui [Warning "No blocked IPs to visualize."] [])).
Proof.
  split; cbn zeta.
  - split; [vm_compute; reflexivity|].
    split; [right; left; reflexivity | vm_compute; reflexivity].
  - split; [vm_compute; reflexivity|]. split; vm_compute; reflexivity.
Qed.

End ReportWorked.
